(** * b2b-ingress-manager: a shallow embedding of the reconciliation core

    The development follows the packages of the repository:

    - [net]: the functions of Go's [net] package that the program calls
      ([ParseIP], [To4], [ParseCIDR], [CIDRMask], [IPMask.Size]);
    - [models]: the structs of [internal/models] with [Validate] and
      [CompareIPs];
    - [nftables]: the rule compiler ([generateExpressionsForRule],
      [byteOrder], [ApplyRules]);
    - [database]: the store ([internal/database]), as explicit state passing
      over the tables of the schema, with transactions and a fault oracle
      for the statements that can fail;
    - [main]: the reconciliation tick [updateNFTables];
    - [api]: the REST handlers of [internal/api] the properties are about.

    The health checker reaches the store only through
    [LogAvailabilityChange], which is part of [database].

    Machine integers: [uint] identifiers are [N], [int] fields are [Z],
    bytes are [Z] in 0..255, [time.Time] is a [Z] clock reading. *)

From Stdlib Require Import ZArith NArith List Ascii String Lia Bool Permutation Sorted.
From stdpp Require Import base option list gmap strings pretty.

Local Open Scope Z_scope.

Definition byte := Z.

(** ** Package net (Go standard library, as called by the program) *)
Module net.

(** [net.IP] is a byte slice; the nil slice is the empty list. *)
Definition IP := list byte.
Definition IPMask := list byte.

Definition is_nil {A} (s : list A) : bool :=
  match s with [] => true | _ => false end.

Definition has_ellipsis (e : option nat) : bool :=
  match e with Some _ => true | None => false end.

Definition chars (s : string) : list ascii := list_ascii_of_string s.

Definition code (c : ascii) : Z := Z.of_N (N_of_ascii c).

Definition is_digit (c : ascii) : bool := (48 <=? code c) && (code c <=? 57).

Definition is_char (c : ascii) (n : Z) : bool := code c =? n.

Definition DOT : Z := 46.
Definition COLON : Z := 58.
Definition PERCENT : Z := 37.
Definition SLASH : Z := 47.

(** netip.parseIPv4: the loop over the characters of [s]. [first] is
    [i == 0], [prevDot] is [s[i-1] == '.'], [fields] holds fields[0..pos). *)
Fixpoint parseIPv4_loop (s : list ascii) (first prevDot : bool)
    (val : Z) (pos : nat) (digLen : nat) (fields : list byte) : option (list byte) :=
  match s with
  | [] => if (pos <? 3)%nat then None else Some (fields ++ [val])
  | c :: rest =>
      if is_digit c then
        if (digLen =? 1)%nat && (val =? 0) then None
        else
          let val' := val * 10 + (code c - 48) in
          if val' >? 255 then None
          else parseIPv4_loop rest false false val' pos (S digLen) fields
      else if is_char c DOT then
        if first || is_nil rest || prevDot then None
        else if (pos =? 3)%nat then None
        else parseIPv4_loop rest false true 0 (S pos) O (fields ++ [val])
      else None
  end.

Definition parseIPv4 (s : list ascii) : option (list byte) :=
  parseIPv4_loop s true false 0 O O [].

Definition hex_val (c : ascii) : option Z :=
  let n := code c in
  if (48 <=? n) && (n <=? 57) then Some (n - 48)
  else if (97 <=? n) && (n <=? 102) then Some (n - 97 + 10)
  else if (65 <=? n) && (n <=? 70) then Some (n - 65 + 10)
  else None.

(** The inner loop of netip.parseIPv6 reading one hexadecimal group:
    [None] when the group has more than four digits, else the value, the
    number of digits read and the rest of the string. *)
Fixpoint hex_group (s : list ascii) (off : nat) (acc : Z) : option (Z * nat * list ascii) :=
  match s with
  | [] => Some (acc, off, [])
  | c :: rest =>
      match hex_val c with
      | Some d =>
          if (3 <? off)%nat then None
          else hex_group rest (S off) (acc * 16 + d)
      | None => Some (acc, off, s)
      end
  end.

(** The outer loop [for i < 16] of netip.parseIPv6; [ip] holds the bytes
    ip[0..i) written so far, so [i = length ip]. The result is the state
    after the loop: the unread rest of the string, the bytes and the
    position of the ellipsis. Every turn adds at least two bytes, so eight
    turns are enough. *)
Fixpoint parseIPv6_loop (turns : nat) (s : list ascii) (ip : list byte)
    (ellipsis : option nat) : option (list ascii * list byte * option nat) :=
  match turns with
  | O => Some (s, ip, ellipsis)
  | S turns' =>
      let i := length ip in
      if (16 <=? i)%nat then Some (s, ip, ellipsis)
      else
        match hex_group s O 0 with
        | None => None
        | Some (acc, off, rest) =>
            if (off =? 0)%nat then None
            else
              match rest with
              | c :: _ =>
                  if is_char c DOT then
                    if negb (has_ellipsis ellipsis) && negb (i =? 12)%nat then None
                    else if (16 <? i + 4)%nat then None
                    else
                      match parseIPv4 s with
                      | None => None
                      | Some v4 => Some ([], ip ++ v4, ellipsis)
                      end
                  else
                    let ip' := ip ++ [Z.shiftr acc 8 mod 256; acc mod 256] in
                    if negb (is_char c COLON) then None
                    else
                      match rest with
                      | [_] => None
                      | _ :: c2 :: rest2 =>
                          if is_char c2 COLON then
                            if has_ellipsis ellipsis then None
                            else if is_nil rest2 then Some ([], ip', Some (length ip'))
                            else parseIPv6_loop turns' rest2 ip' (Some (length ip'))
                          else parseIPv6_loop turns' (c2 :: rest2) ip' ellipsis
                      | [] => None
                      end
              | [] => Some ([], ip ++ [Z.shiftr acc 8 mod 256; acc mod 256], ellipsis)
              end
        end
  end.

Definition zeros (n : nat) : list byte := repeat 0 n.

(** netip.parseIPv6 for a string without zone: the 16 bytes of the address. *)
Definition parseIPv6 (s : list ascii) : option (list byte) :=
  let start :=
    match s with
    | c1 :: c2 :: rest =>
        if is_char c1 COLON && is_char c2 COLON then (rest, Some O, is_nil rest)
        else (s, None, false)
    | _ => (s, None, false)
    end in
  let '(s1, ellipsis0, only_ellipsis) := start in
  if only_ellipsis then Some (zeros 16)
  else
    match parseIPv6_loop 8 s1 [] ellipsis0 with
    | None => None
    | Some (rest, ip, ellipsis) =>
        if negb (is_nil rest) then None
        else
          let i := length ip in
          if (i <? 16)%nat then
            match ellipsis with
            | None => None
            | Some e => Some (take e ip ++ zeros (16 - i) ++ drop e ip)
            end
          else if has_ellipsis ellipsis then None
          else Some ip
    end.

Inductive Addr :=
| Addr4 (b : list byte)
| Addr6 (b : list byte).

(** netip.ParseAddr: the first of '.', ':' and '%' decides the parser. A
    zone ('%' inside an IPv6 literal) makes [net.ParseIP] and
    [net.ParseCIDR] fail, so a string with '%' has no address here. *)
Fixpoint ParseAddr_scan (s rest : list ascii) : option Addr :=
  match rest with
  | [] => None
  | c :: rest' =>
      if is_char c DOT then Addr4 <$> parseIPv4 s
      else if is_char c COLON then
        if existsb (fun c => is_char c PERCENT) s then None
        else Addr6 <$> parseIPv6 s
      else if is_char c PERCENT then None
      else ParseAddr_scan s rest'
  end.

Definition ParseAddr (s : list ascii) : option Addr := ParseAddr_scan s s.

Definition v4InV6Prefix : list byte := zeros 10 ++ [255; 255].

Definition As16 (a : Addr) : list byte :=
  match a with
  | Addr4 b => v4InV6Prefix ++ b
  | Addr6 b => b
  end.

Definition BitLen (a : Addr) : Z :=
  match a with Addr4 _ => 32 | Addr6 _ => 128 end.

(** net.ParseIP: nil (the empty list) when [s] is no IP literal, else the
    16-byte form. *)
Definition ParseIP (s : string) : IP :=
  match ParseAddr (chars s) with
  | Some a => As16 a
  | None => []
  end.

Definition byte_list_eqb (a b : list byte) : bool :=
  bool_decide (a = b).

(** IP.To4 *)
Definition To4 (ip : IP) : IP :=
  if (length ip =? 4)%nat then ip
  else if (length ip =? 16)%nat && byte_list_eqb (take 12 ip) v4InV6Prefix
       then drop 12 ip
  else [].

(** net.dtoi: the decimal number at the start of [s], the number of
    characters read and whether a number below 0xFFFFFF was read. *)
Fixpoint dtoi_loop (s : list ascii) (n : Z) (i : nat) : Z * nat * bool :=
  match s with
  | c :: rest =>
      if is_digit c then
        let n' := n * 10 + (code c - 48) in
        if 16777215 <=? n' then (16777215, i, false)
        else dtoi_loop rest n' (S i)
      else (n, i, true)
  | [] => (n, i, true)
  end.

Definition dtoi (s : list ascii) : Z * nat * bool :=
  let '(n, i, ok) := dtoi_loop s 0 O in
  if ok && (i =? 0)%nat then (0, O, false) else (n, i, ok).

Fixpoint CIDRMask_loop (l : nat) (n : Z) : list byte :=
  match l with
  | O => []
  | S l' =>
      if 8 <=? n then 255 :: CIDRMask_loop l' (n - 8)
      else (255 - Z.shiftr 255 n) :: CIDRMask_loop l' 0
  end.

(** net.CIDRMask *)
Definition CIDRMask (ones bits : Z) : IPMask :=
  if negb (bits =? 32) && negb (bits =? 128) then []
  else if (ones <? 0) || (bits <? ones) then []
  else CIDRMask_loop (Z.to_nat (bits / 8)) ones.

(** The count of leading one bits of a byte and what is left of the byte
    after shifting them out (the loop [for v&0x80 != 0] of
    net.simpleMaskLength). *)
Fixpoint leading_ones (turns : nat) (v : Z) (n : Z) : Z * Z :=
  match turns with
  | O => (n, v)
  | S t =>
      if Z.testbit v 7 then leading_ones t (Z.shiftl v 1 mod 256) (n + 1)
      else (n, v)
  end.

(** net.simpleMaskLength, -1 when the mask is not a run of ones followed by
    zeros. *)
Fixpoint simpleMaskLength (mask : IPMask) (n : Z) : Z :=
  match mask with
  | [] => n
  | v :: rest =>
      if v =? 255 then simpleMaskLength rest (n + 8)
      else
        let '(n', v') := leading_ones 8 v n in
        if negb (v' =? 0) then -1
        else if forallb (fun b => b =? 0) rest then n' else -1
  end.

(** IPMask.Size *)
Definition Size (m : IPMask) : Z * Z :=
  let ones := simpleMaskLength m 0 in
  if ones =? -1 then (0, 0) else (ones, Z.of_nat (length m) * 8).

(** IP.Mask *)
Definition Mask (ip : IP) (mask : IPMask) : IP :=
  let mask1 :=
    if (length mask =? 16)%nat && (length ip =? 4)%nat
       && forallb (fun b => b =? 255) (take 12 mask)
    then drop 12 mask else mask in
  let ip1 :=
    if (length mask1 =? 4)%nat && (length ip =? 16)%nat
       && byte_list_eqb (take 12 ip) v4InV6Prefix
    then drop 12 ip else ip in
  if negb (length ip1 =? length mask1)%nat then []
  else zip_with Z.land ip1 mask1.

Record IPNet := { ipnet_IP : IP; ipnet_Mask : IPMask }.

Fixpoint split_slash (s : list ascii) (before : list ascii) : option (list ascii * list ascii) :=
  match s with
  | [] => None
  | c :: rest =>
      if is_char c SLASH then Some (before, rest)
      else split_slash rest (before ++ [c])
  end.

(** net.ParseCIDR; [None] is the error return. *)
Definition ParseCIDR (s : string) : option (IP * IPNet) :=
  match split_slash (chars s) [] with
  | None => None
  | Some (addr, mask) =>
      match ParseAddr addr with
      | None => None
      | Some ipAddr =>
          let '(n, i, ok) := dtoi mask in
          if negb ok || negb (i =? length mask)%nat || (n <? 0) || (BitLen ipAddr <? n)
          then None
          else
            let m := CIDRMask n (BitLen ipAddr) in
            let addr16 := As16 ipAddr in
            Some (addr16, {| ipnet_IP := Mask addr16 m; ipnet_Mask := m |})
      end
  end.

End net.

(** ** Package models (internal/models) *)
Module models.

(** The embedded [gorm.Model] contributes the primary key [ID] and the
    soft-delete mark [DeletedAt], kept here as the flag [Deleted] (set when
    [DeletedAt] is not NULL). [CreatedAt] and [UpdatedAt] are never read by
    the code the claims are about and are left out. *)

Record Address := {
  Address_ID : N;
  Address_Deleted : bool;
  BackendID : N;
  IP : string;
  Port : Z;
  Available : bool;
  LastChecked : Z
}.

(** [Backend.BackendSets], the back reference of the many-to-many relation,
    is never read or written by the program and is left out. *)
Record Backend := {
  Backend_ID : N;
  Backend_Deleted : bool;
  Backend_Name : string;
  Backend_Description : string;
  Addresses : list Address
}.

Record BackendSet := {
  BackendSet_ID : N;
  BackendSet_Deleted : bool;
  BackendSet_Name : string;
  BackendSet_Description : string;
  Backends : list Backend
}.

Record SourceDefinition := {
  SourceDefinition_ID : N;
  SourceDefinition_Deleted : bool;
  SourceDefinition_Name : string;
  SourceDefinition_Description : string;
  Type_ : string;   (* the field Type *)
  IPAddress : string;
  Subnet : string;
  RangeStart : string;
  RangeEnd : string
}.

Record Rule := {
  Rule_ID : N;
  Rule_Deleted : bool;
  SourceDefinitionID : N;
  Rule_SourceDefinition : SourceDefinition;
  DestinationPort : Z;
  Protocol : string;
  BackendSetID : N;
  Rule_BackendSet : BackendSet;
  Priority : Z;
  Enabled : bool
}.

Record ConfigChange := {
  ConfigChange_ID : N;
  ChangeType : string;
  EntityType : string;
  EntityID : N;
  Description : string;
  ChangedBy : string
}.

Record AvailabilityLog := {
  AvailabilityLog_ID : N;
  AddressID : N;
  AvailabilityLog_Available : bool;
  CheckTime : Z;
  CheckError : string
}.

(** CompareIPs compares two IP addresses *)
Fixpoint CompareIPs (ip1 ip2 : net.IP) : Z :=
  match ip1, ip2 with
  | [], [] => 0
  | [], _ :: _ => -1
  | _ :: _, [] => 1
  | a :: r1, b :: r2 =>
      if a <? b then -1
      else if a >? b then 1
      else CompareIPs r1 r2
  end.

(** Validate checks if a source definition is valid *)
Definition Validate (s : SourceDefinition) : bool :=
  if (Type_ s =? "ip")%string then
    negb (net.is_nil (net.ParseIP (IPAddress s)))
  else if (Type_ s =? "subnet")%string then
    match net.ParseCIDR (Subnet s) with
    | Some _ => true
    | None => false
    end
  else if (Type_ s =? "range")%string then
    let start := net.ParseIP (RangeStart s) in
    let end_ := net.ParseIP (RangeEnd s) in
    negb (net.is_nil start) && negb (net.is_nil end_) && (CompareIPs start end_ <=? 0)
  else false.

End models.

(** ** Package nftables (internal/nftables) *)
Module nftables.
Import models.

(** The expressions of [github.com/google/nftables/expr] the compiler builds. *)
Inductive MetaKey := MetaKeyL4PROTO.
Inductive CmpOp := CmpOpEq.
Inductive PayloadBase := PayloadBaseNetworkHeader | PayloadBaseTransportHeader.
Inductive NATType := NATTypeDestNAT.

Inductive Any :=
| Meta (Key : MetaKey) (Register : Z)
| Cmp (Op : CmpOp) (Register : Z) (Data : list byte)
| Payload (DestRegister : Z) (Base : PayloadBase) (Offset Len : Z)
| Bitwise (SourceRegister DestRegister Len : Z) (Mask Xor : list byte)
| Range (Op : CmpOp) (Register : Z) (FromData ToData : list byte)
| Immediate (Register : Z) (Data : list byte)
| NAT (Type_ : NATType) (Family RegAddrMin RegProtoMin : Z).

(** The errors [generateExpressionsForRule] builds with [fmt.Errorf], by
    format string, with the formatted values as arguments. *)
Inductive error :=
| unsupported_protocol (protocol : string)
| invalid_IP_address (s : string)
| not_an_IPv4_address (s : string)
| invalid_subnet (s : string)
| invalid_IP_range (range_start range_end : string)
| invalid_backend_IP_address (s : string).

(** [m.rng]: a pseudo-random source, as the sequence of its raw draws and
    the position of the next one. *)
Record Rand := { draws : nat -> nat; position : nat }.

(** [rng.Intn n] for [n > 0]. *)
Definition Intn (rng : Rand) (n : nat) : nat * Rand :=
  (draws rng (position rng) mod n,
   {| draws := draws rng; position := S (position rng) |})%nat.

(** The conversion [uint16(x)] of an [int]. *)
Definition uint16 (x : Z) : Z := x mod 65536.

(** byteOrder converts a uint16 to network byte order *)
Definition byteOrder (port : Z) : list byte :=
  [Z.shiftr port 8 mod 256; port mod 256].

(** What a call of [generateExpressionsForRule] ends in: the expressions,
    an error, or the run-time panic of [Intn] on an empty address list. *)
Inductive outcome :=
| Exprs (expressions : list Any)
| Failed (err : error)
| Panic.

Definition protocol_match (protoNum : Z) : list Any :=
  [ Meta MetaKeyL4PROTO 1; Cmp CmpOpEq 1 [protoNum] ].

Definition destination_port_match (rule : Rule) : list Any :=
  [ Payload 1 PayloadBaseTransportHeader 2 2;
    Cmp CmpOpEq 1 (byteOrder (uint16 (DestinationPort rule))) ].

Definition source_payload : Any := Payload 1 PayloadBaseNetworkHeader 12 4.

(** The switch on [rule.SourceDefinition.Type]: the source address match,
    or the error of the case; a type that is none of the three adds no
    expression. *)
Definition source_address_match (sd : SourceDefinition) : error + list Any :=
  if (Type_ sd =? "ip")%string then
    let ip := net.ParseIP (IPAddress sd) in
    if net.is_nil ip then inl (invalid_IP_address (IPAddress sd))
    else
      let ip := net.To4 ip in
      if net.is_nil ip then inl (not_an_IPv4_address (IPAddress sd))
      else inr [ source_payload; Cmp CmpOpEq 1 ip ]
  else if (Type_ sd =? "subnet")%string then
    match net.ParseCIDR (Subnet sd) with
    | None => inl (invalid_subnet (Subnet sd))
    | Some (_, ipnet) =>
        let '(ones, _) := net.Size (net.ipnet_Mask ipnet) in
        let mask := net.CIDRMask ones 32 in
        inr [ source_payload;
              Bitwise 1 1 4 mask [0; 0; 0; 0];
              Cmp CmpOpEq 1 (net.To4 (net.ipnet_IP ipnet)) ]
    end
  else if (Type_ sd =? "range")%string then
    let startIP := net.To4 (net.ParseIP (RangeStart sd)) in
    let endIP := net.To4 (net.ParseIP (RangeEnd sd)) in
    if net.is_nil startIP || net.is_nil endIP
    then inl (invalid_IP_range (RangeStart sd) (RangeEnd sd))
    else inr [ source_payload; Range CmpOpEq 1 startIP endIP ]
  else inr [].

Definition dnat (destIP : net.IP) (selectedAddress : Address) : list Any :=
  [ Immediate 1 destIP;
    Immediate 2 (byteOrder (uint16 (Port selectedAddress)));
    NAT NATTypeDestNAT 2 1 2 ].

(** generateExpressionsForRule creates nftables expressions for a rule *)
Definition generateExpressionsForRule (rng : Rand) (rule : Rule)
    (addresses : list Address) : outcome * Rand :=
  let protoNum :=
    if (Protocol rule =? "tcp")%string then Some 6
    else if (Protocol rule =? "udp")%string then Some 17
    else None in
  match protoNum with
  | None => (Failed (unsupported_protocol (Protocol rule)), rng)
  | Some protoNum =>
      let expressions := protocol_match protoNum ++ destination_port_match rule in
      match source_address_match (Rule_SourceDefinition rule) with
      | inl err => (Failed err, rng)
      | inr src =>
          let expressions := expressions ++ src in
          match addresses with
          | [] => (Panic, rng)
          | first :: _ =>
              let '(k, rng') := Intn rng (length addresses) in
              let selectedAddress := nth k addresses first in
              let destIP := net.To4 (net.ParseIP (IP selectedAddress)) in
              if net.is_nil destIP
              then (Failed (invalid_backend_IP_address (IP selectedAddress)), rng')
              else (Exprs (expressions ++ dnat destIP selectedAddress), rng')
          end
      end
  end.

(** [nftables.Rule] as [ApplyRules] fills it; table and chain are the
    manager's for every rule. *)
Record Rule_ := { Exprs_ : list Any; UserData : string }.

Inductive log_entry :=
| Warnf_no_available_backend_addresses (rule_id backend_set_id : N)
| Errorf_failed_to_generate_expressions (rule_id : N) (err : error)
| Info_rules_applied.

Record compiled := {
  added : list Rule_;         (* the AddRule calls queued on the connection *)
  log : list log_entry;
  rng_after : Rand;
  panicked : bool
}.

(** The loop [for _, rule := range rules] of ApplyRules. *)
Fixpoint compile (rng : Rand) (rules : list Rule)
    (addresses : gmap N (list Address)) : compiled :=
  match rules with
  | [] => {| added := []; log := []; rng_after := rng; panicked := false |}
  | rule :: rest =>
      let backendAddresses := default [] (addresses !! BackendSetID rule) in
      if net.is_nil backendAddresses then
        let c := compile rng rest addresses in
        {| added := added c;
           log := Warnf_no_available_backend_addresses (Rule_ID rule) (BackendSetID rule) :: log c;
           rng_after := rng_after c; panicked := panicked c |}
      else
        match generateExpressionsForRule rng rule backendAddresses with
        | (Failed err, rng') =>
            let c := compile rng' rest addresses in
            {| added := added c;
               log := Errorf_failed_to_generate_expressions (Rule_ID rule) err :: log c;
               rng_after := rng_after c; panicked := panicked c |}
        | (Exprs expressions, rng') =>
            let c := compile rng' rest addresses in
            {| added := {| Exprs_ := expressions;
                           UserData := "rule_id:" +:+ pretty (Rule_ID rule) |} :: added c;
               log := log c; rng_after := rng_after c; panicked := panicked c |}
        | (Panic, rng') =>
            {| added := []; log := []; rng_after := rng'; panicked := true |}
        end
  end.

(** The manager: its random source and the rules of its chain in the
    kernel. *)
Record Manager := { rng : Rand; chain : list Rule_ }.

(** ApplyRules applies the given rules to nftables. [flush] is what
    [conn.Flush] returns: the batch (flush of the chain, then the added
    rules) is committed as one unit or not at all. *)
Definition ApplyRules (m : Manager) (flush : option string) (rules : list Rule)
    (addresses : gmap N (list Address)) : option string * Manager * list log_entry :=
  let c := compile (rng m) rules addresses in
  match flush with
  | Some err =>
      (Some ("failed to apply nftables rules: " +:+ err),
       {| rng := rng_after c; chain := chain m |}, log c)
  | None =>
      (None, {| rng := rng_after c; chain := added c |}, log c ++ [Info_rules_applied])
  end.

End nftables.

(** ** Package database (internal/database)

    The store is the relational database behind [gorm]. A state [DB] holds
    the rows of every table of the schema, in the order they were inserted.
    The mutex of [Service] serialises the calls, so every method is a
    function from the state before the call to the state after it.

    What the database itself can refuse (a lost connection, a violated
    constraint) is not decided by the program: a fault oracle [Faults] says,
    for the k-th statement a method issues, whether the database fails it
    and with what text. *)
Module database.
Import models.

Record DB := {
  backends : list Backend;
  addresses : list Address;
  backend_sets : list BackendSet;
  backend_set_backends : list (N * N);   (* (backend_set_id, backend_id) *)
  source_definitions : list SourceDefinition;
  rules : list Rule;
  config_changes : list ConfigChange;
  availability_logs : list AvailabilityLog
}.

Definition empty : DB :=
  {| backends := []; addresses := []; backend_sets := [];
     backend_set_backends := []; source_definitions := []; rules := [];
     config_changes := []; availability_logs := [] |}.

Definition with_backends (t : list Backend) (db : DB) : DB :=
  {| backends := t; addresses := addresses db; backend_sets := backend_sets db;
     backend_set_backends := backend_set_backends db;
     source_definitions := source_definitions db; rules := rules db;
     config_changes := config_changes db; availability_logs := availability_logs db |}.

Definition with_addresses (t : list Address) (db : DB) : DB :=
  {| backends := backends db; addresses := t; backend_sets := backend_sets db;
     backend_set_backends := backend_set_backends db;
     source_definitions := source_definitions db; rules := rules db;
     config_changes := config_changes db; availability_logs := availability_logs db |}.

Definition with_backend_sets (t : list BackendSet) (db : DB) : DB :=
  {| backends := backends db; addresses := addresses db; backend_sets := t;
     backend_set_backends := backend_set_backends db;
     source_definitions := source_definitions db; rules := rules db;
     config_changes := config_changes db; availability_logs := availability_logs db |}.

Definition with_backend_set_backends (t : list (N * N)) (db : DB) : DB :=
  {| backends := backends db; addresses := addresses db; backend_sets := backend_sets db;
     backend_set_backends := t;
     source_definitions := source_definitions db; rules := rules db;
     config_changes := config_changes db; availability_logs := availability_logs db |}.

Definition with_source_definitions (t : list SourceDefinition) (db : DB) : DB :=
  {| backends := backends db; addresses := addresses db; backend_sets := backend_sets db;
     backend_set_backends := backend_set_backends db;
     source_definitions := t; rules := rules db;
     config_changes := config_changes db; availability_logs := availability_logs db |}.

Definition with_rules (t : list Rule) (db : DB) : DB :=
  {| backends := backends db; addresses := addresses db; backend_sets := backend_sets db;
     backend_set_backends := backend_set_backends db;
     source_definitions := source_definitions db; rules := t;
     config_changes := config_changes db; availability_logs := availability_logs db |}.

Definition with_config_changes (t : list ConfigChange) (db : DB) : DB :=
  {| backends := backends db; addresses := addresses db; backend_sets := backend_sets db;
     backend_set_backends := backend_set_backends db;
     source_definitions := source_definitions db; rules := rules db;
     config_changes := t; availability_logs := availability_logs db |}.

Definition with_availability_logs (t : list AvailabilityLog) (db : DB) : DB :=
  {| backends := backends db; addresses := addresses db; backend_sets := backend_sets db;
     backend_set_backends := backend_set_backends db;
     source_definitions := source_definitions db; rules := rules db;
     config_changes := config_changes db; availability_logs := t |}.

(** The errors a method of [Service] returns. *)
Inductive error :=
| ErrRecordNotFound                 (* gorm.ErrRecordNotFound *)
| ErrDuplicatedKey                  (* an insert with a primary key already in the table *)
| driver_error (text : string)      (* a statement failed by the database *)
| Errorf (text : string).           (* an error built with fmt.Errorf *)

(** [err.Error()] *)
Definition Error (e : error) : string :=
  match e with
  | ErrRecordNotFound => "record not found"
  | ErrDuplicatedKey => "duplicated key not allowed"
  | driver_error text => text
  | Errorf text => text
  end.

Definition Faults := nat -> option string.

Definition no_faults : Faults := fun _ => None.

(** What gorm needs of a model struct: the primary key and the soft-delete
    mark of the embedded [gorm.Model]. *)
Class Row (A : Type) := {
  row_ID : A -> N;
  row_Deleted : A -> bool;
  set_ID : N -> A -> A;
  set_Deleted : bool -> A -> A
}.

#[global] Instance Row_Backend : Row Backend := {
  row_ID := Backend_ID;
  row_Deleted := Backend_Deleted;
  set_ID id b :=
    {| Backend_ID := id; Backend_Deleted := Backend_Deleted b;
       Backend_Name := Backend_Name b; Backend_Description := Backend_Description b;
       Addresses := Addresses b |};
  set_Deleted d b :=
    {| Backend_ID := Backend_ID b; Backend_Deleted := d;
       Backend_Name := Backend_Name b; Backend_Description := Backend_Description b;
       Addresses := Addresses b |}
}.

#[global] Instance Row_Address : Row Address := {
  row_ID := Address_ID;
  row_Deleted := Address_Deleted;
  set_ID id a :=
    {| Address_ID := id; Address_Deleted := Address_Deleted a; BackendID := BackendID a;
       IP := IP a; Port := Port a; Available := Available a; LastChecked := LastChecked a |};
  set_Deleted d a :=
    {| Address_ID := Address_ID a; Address_Deleted := d; BackendID := BackendID a;
       IP := IP a; Port := Port a; Available := Available a; LastChecked := LastChecked a |}
}.

#[global] Instance Row_BackendSet : Row BackendSet := {
  row_ID := BackendSet_ID;
  row_Deleted := BackendSet_Deleted;
  set_ID id b :=
    {| BackendSet_ID := id; BackendSet_Deleted := BackendSet_Deleted b;
       BackendSet_Name := BackendSet_Name b;
       BackendSet_Description := BackendSet_Description b; Backends := Backends b |};
  set_Deleted d b :=
    {| BackendSet_ID := BackendSet_ID b; BackendSet_Deleted := d;
       BackendSet_Name := BackendSet_Name b;
       BackendSet_Description := BackendSet_Description b; Backends := Backends b |}
}.

#[global] Instance Row_SourceDefinition : Row SourceDefinition := {
  row_ID := SourceDefinition_ID;
  row_Deleted := SourceDefinition_Deleted;
  set_ID id s :=
    {| SourceDefinition_ID := id; SourceDefinition_Deleted := SourceDefinition_Deleted s;
       SourceDefinition_Name := SourceDefinition_Name s;
       SourceDefinition_Description := SourceDefinition_Description s;
       Type_ := Type_ s; IPAddress := IPAddress s; Subnet := Subnet s;
       RangeStart := RangeStart s; RangeEnd := RangeEnd s |};
  set_Deleted d s :=
    {| SourceDefinition_ID := SourceDefinition_ID s; SourceDefinition_Deleted := d;
       SourceDefinition_Name := SourceDefinition_Name s;
       SourceDefinition_Description := SourceDefinition_Description s;
       Type_ := Type_ s; IPAddress := IPAddress s; Subnet := Subnet s;
       RangeStart := RangeStart s; RangeEnd := RangeEnd s |}
}.

#[global] Instance Row_Rule : Row Rule := {
  row_ID := Rule_ID;
  row_Deleted := Rule_Deleted;
  set_ID id r :=
    {| Rule_ID := id; Rule_Deleted := Rule_Deleted r;
       SourceDefinitionID := SourceDefinitionID r;
       Rule_SourceDefinition := Rule_SourceDefinition r;
       DestinationPort := DestinationPort r; Protocol := Protocol r;
       BackendSetID := BackendSetID r; Rule_BackendSet := Rule_BackendSet r;
       Priority := Priority r; Enabled := Enabled r |};
  set_Deleted d r :=
    {| Rule_ID := Rule_ID r; Rule_Deleted := d;
       SourceDefinitionID := SourceDefinitionID r;
       Rule_SourceDefinition := Rule_SourceDefinition r;
       DestinationPort := DestinationPort r; Protocol := Protocol r;
       BackendSetID := BackendSetID r; Rule_BackendSet := Rule_BackendSet r;
       Priority := Priority r; Enabled := Enabled r |}
}.

(** The two marks of a row are independent fields of the struct. *)
Class RowLaws (A : Type) `{Row A} := {
  row_ID_set_ID (id : N) (x : A) : row_ID (set_ID id x) = id;
  set_ID_row_ID (x : A) : set_ID (row_ID x) x = x;
  row_Deleted_set_Deleted (d : bool) (x : A) : row_Deleted (set_Deleted d x) = d;
  row_ID_set_Deleted (d : bool) (x : A) : row_ID (set_Deleted d x) = row_ID x
}.

#[global] Instance RowLaws_Backend : RowLaws Backend.
Proof. split; intros; try destruct x; reflexivity. Qed.

#[global] Instance RowLaws_Address : RowLaws Address.
Proof. split; intros; try destruct x; reflexivity. Qed.

#[global] Instance RowLaws_BackendSet : RowLaws BackendSet.
Proof. split; intros; try destruct x; reflexivity. Qed.

#[global] Instance RowLaws_SourceDefinition : RowLaws SourceDefinition.
Proof. split; intros; try destruct x; reflexivity. Qed.

#[global] Instance RowLaws_Rule : RowLaws Rule.
Proof. split; intros; try destruct x; reflexivity. Qed.

Section table.
Context {A : Type} `{Row A}.

Definition live (r : A) : bool := negb (row_Deleted r).

Definition has_ID (id : N) (r : A) : bool := (row_ID r =? id)%N.

(** The key the database gives a row inserted without one: above every
    key of the table. *)
Definition fresh_ID (t : list A) : N :=
  N.succ (foldr N.max 0%N (row_ID <$> t)).

(** [db.First(&x, id)]: the live row with this key. *)
Definition First (f : Faults) (k : nat) (id : N) (t : list A) : error + A :=
  match f k with
  | Some text => inl (driver_error text)
  | None =>
      match List.find (fun r => live r && has_ID id r) t with
      | Some r => inr r
      | None => inl ErrRecordNotFound
      end
  end.

(** [tx.Create(x)]: a zero key is filled in by the database; a key that a
    row of the table already has (deleted or not) is refused. *)
Definition Create (f : Faults) (k : nat) (x : A) (t : list A) : error + (A * list A) :=
  match f k with
  | Some text => inl (driver_error text)
  | None =>
      if (row_ID x =? 0)%N then
        let x' := set_ID (fresh_ID t) x in inr (x', t ++ [x'])
      else if existsb (has_ID (row_ID x)) t then inl ErrDuplicatedKey
      else inr (x, t ++ [x])
  end.

Fixpoint replace_row (x : A) (t : list A) : list A :=
  match t with
  | [] => []
  | r :: t' => if has_ID (row_ID x) r then x :: t' else r :: replace_row x t'
  end.

(** [tx.Save(x)]: with a zero key it is [Create]; else every column of the
    row with this key is overwritten, and when no live row was updated
    gorm inserts the struct with ON CONFLICT (id) DO UPDATE, so the row
    with this key holds [x] afterwards either way. *)
Definition Save (f : Faults) (k : nat) (x : A) (t : list A) : error + (A * list A) :=
  if (row_ID x =? 0)%N then Create f k x t
  else
    match f k with
    | Some text => inl (driver_error text)
    | None =>
        if existsb (has_ID (row_ID x)) t then inr (x, replace_row x t)
        else inr (x, t ++ [x])
    end.

(** [tx.Delete(...)] on a model with [gorm.Model] is a soft delete: the
    live rows the condition selects get their [DeletedAt] set. *)
Definition Delete (f : Faults) (k : nat) (cond : A -> bool) (t : list A) : error + list A :=
  match f k with
  | Some text => inl (driver_error text)
  | None => inr ((fun r => if live r && cond r then set_Deleted true r else r) <$> t)
  end.

(** [db.Model(&T{}).Where(...).Count(&count)] *)
Definition Count (f : Faults) (k : nat) (cond : A -> bool) (t : list A) : error + Z :=
  match f k with
  | Some text => inl (driver_error text)
  | None => inr (Z.of_nat (length (List.filter (fun r => live r && cond r) t)))
  end.
End table.


Definition change (changeType entityType : string) (entityID : N)
    (description changedBy : string) : ConfigChange :=
  {| ConfigChange_ID := 0; ChangeType := changeType; EntityType := entityType;
     EntityID := entityID; Description := description; ChangedBy := changedBy |}.

Definition fresh_change_ID (t : list ConfigChange) : N :=
  N.succ (foldr N.max 0%N (ConfigChange_ID <$> t)).

(** [tx.Create(&models.ConfigChange{...})] *)
Definition Create_ConfigChange (f : Faults) (k : nat) (c : ConfigChange) (tx : DB) : error + DB :=
  match f k with
  | Some text => inl (driver_error text)
  | None =>
      let c' := {| ConfigChange_ID := fresh_change_ID (config_changes tx);
                   ChangeType := ChangeType c; EntityType := EntityType c;
                   EntityID := EntityID c; Description := Description c;
                   ChangedBy := ChangedBy c |} in
      inr (with_config_changes (config_changes tx ++ [c']) tx)
  end.

(** [tx.Commit()]: the state of the transaction becomes the state of the
    database, or the commit fails and nothing of the transaction is kept. *)
Definition Commit (f : Faults) (k : nat) (tx db : DB) : option error * DB :=
  match f k with
  | Some text => (Some (driver_error text), db)
  | None => (None, tx)
  end.

(** In every method below [tx := s.db.Begin()] starts from the state [db]
    of the call, and [tx.Rollback()] gives [db] back. A struct passed by
    pointer is returned as the method leaves it. *)

(** LogConfigChange records a configuration change to the database *)
Definition LogConfigChange (f : Faults) (changeType entityType : string) (entityID : N)
    (description changedBy : string) (db : DB) : option error * DB :=
  match Create_ConfigChange f 0 (change changeType entityType entityID description changedBy) db with
  | inl err => (Some err, db)
  | inr db' => (None, db')
  end.

(** LogAvailabilityChange records a backend availability change.
    [checkTime] and [lastChecked] are its two readings of [time.Now()].
    Both statements run on [s.db] itself, outside any transaction. *)
Definition LogAvailabilityChange (f : Faults) (addressID : N) (available : bool)
    (checkError : string) (checkTime lastChecked : Z) (db : DB) : option error * DB :=
  let log := {| AvailabilityLog_ID := 0; AddressID := addressID;
                AvailabilityLog_Available := available;
                CheckTime := checkTime; CheckError := checkError |} in
  match f 0%nat with
  | Some text => (Some (driver_error text), db)
  | None =>
      let db1 :=
        with_addresses
          ((fun a =>
              if live a && has_ID addressID a then
                {| Address_ID := Address_ID a; Address_Deleted := Address_Deleted a;
                   BackendID := BackendID a; IP := IP a; Port := Port a;
                   Available := available; LastChecked := lastChecked |}
              else a) <$> addresses db) db in
      match f 1%nat with
      | Some text => (Some (driver_error text), db1)
      | None =>
          let id := N.succ (foldr N.max 0%N (AvailabilityLog_ID <$> availability_logs db1)) in
          let log' := {| AvailabilityLog_ID := id; AddressID := AddressID log;
                         AvailabilityLog_Available := AvailabilityLog_Available log;
                         CheckTime := CheckTime log; CheckError := CheckError log |} in
          (None, with_availability_logs (availability_logs db1 ++ [log']) db1)
      end
  end.

(** CreateBackend creates a new backend *)
Definition CreateBackend (f : Faults) (backend : Backend) (changedBy : string)
    (db : DB) : option error * Backend * DB :=
  match Create f 0 backend (backends db) with
  | inl err => (Some err, backend, db)
  | inr (backend, t) =>
      let tx := with_backends t db in
      match Create_ConfigChange f 1
              (change "create" "backend" (Backend_ID backend)
                 ("Created backend " +:+ Backend_Name backend) changedBy) tx with
      | inl err => (Some err, backend, db)
      | inr tx => let '(e, db') := Commit f 2 tx db in (e, backend, db')
      end
  end.

(** UpdateBackend updates an existing backend *)
Definition UpdateBackend (f : Faults) (backend : Backend) (changedBy : string)
    (db : DB) : option error * Backend * DB :=
  match Save f 0 backend (backends db) with
  | inl err => (Some err, backend, db)
  | inr (backend, t) =>
      let tx := with_backends t db in
      match Create_ConfigChange f 1
              (change "update" "backend" (Backend_ID backend)
                 ("Updated backend " +:+ Backend_Name backend) changedBy) tx with
      | inl err => (Some err, backend, db)
      | inr tx => let '(e, db') := Commit f 2 tx db in (e, backend, db')
      end
  end.

(** DeleteBackend deletes a backend by ID *)
Definition DeleteBackend (f : Faults) (id : N) (changedBy : string) (db : DB) : option error * DB :=
  match First f 0 id (backends db) with
  | inl err => (Some err, db)
  | inr backend =>
      (* First remove the backend from any backend sets *)
      match f 1%nat with
      | Some text => (Some (driver_error text), db)
      | None =>
          let tx := with_backend_set_backends
                      (List.filter (fun p => negb (snd p =? id)%N) (backend_set_backends db)) db in
          (* Delete associated addresses *)
          match Delete f 2 (fun a => (BackendID a =? id)%N) (addresses tx) with
          | inl err => (Some err, db)
          | inr t =>
              let tx := with_addresses t tx in
              (* Delete the backend *)
              match Delete f 3 (has_ID (Backend_ID backend)) (backends tx) with
              | inl err => (Some err, db)
              | inr t =>
                  let tx := with_backends t tx in
                  match Create_ConfigChange f 4
                          (change "delete" "backend" id
                             ("Deleted backend " +:+ Backend_Name backend) changedBy) tx with
                  | inl err => (Some err, db)
                  | inr tx => Commit f 5 tx db
                  end
              end
          end
      end
  end.

(** CreateAddress adds a new address to a backend *)
Definition CreateAddress (f : Faults) (backendID : N) (address : Address) (changedBy : string)
    (db : DB) : option error * Address * DB :=
  (* Set backend ID *)
  let address :=
    {| Address_ID := Address_ID address; Address_Deleted := Address_Deleted address;
       BackendID := backendID; IP := IP address; Port := Port address;
       Available := Available address; LastChecked := LastChecked address |} in
  match Create f 0 address (addresses db) with
  | inl err => (Some err, address, db)
  | inr (address, t) =>
      let tx := with_addresses t db in
      match Create_ConfigChange f 1
              (change "create" "address" (Address_ID address)
                 ("Added address " +:+ IP address +:+ ":" +:+ pretty (Port address)
                  +:+ " to backend ID " +:+ pretty backendID) changedBy) tx with
      | inl err => (Some err, address, db)
      | inr tx => let '(e, db') := Commit f 2 tx db in (e, address, db')
      end
  end.

(** GetAddress retrieves an address by ID *)
Definition GetAddress (f : Faults) (id : N) (db : DB) : error + Address :=
  First f 0 id (addresses db).

(** UpdateAddress updates an existing address *)
Definition UpdateAddress (f : Faults) (address : Address) (changedBy : string)
    (db : DB) : option error * Address * DB :=
  match Save f 0 address (addresses db) with
  | inl err => (Some err, address, db)
  | inr (address, t) =>
      let tx := with_addresses t db in
      match Create_ConfigChange f 1
              (change "update" "address" (Address_ID address)
                 ("Updated address " +:+ IP address +:+ ":" +:+ pretty (Port address))
                 changedBy) tx with
      | inl err => (Some err, address, db)
      | inr tx => let '(e, db') := Commit f 2 tx db in (e, address, db')
      end
  end.

(** DeleteAddress deletes an address by ID *)
Definition DeleteAddress (f : Faults) (id : N) (changedBy : string) (db : DB) : option error * DB :=
  match First f 0 id (addresses db) with
  | inl err => (Some err, db)
  | inr address =>
      match Delete f 1 (has_ID (Address_ID address)) (addresses db) with
      | inl err => (Some err, db)
      | inr t =>
          let tx := with_addresses t db in
          match Create_ConfigChange f 2
                  (change "delete" "address" id
                     ("Deleted address " +:+ IP address +:+ ":" +:+ pretty (Port address))
                     changedBy) tx with
          | inl err => (Some err, db)
          | inr tx => Commit f 3 tx db
          end
      end
  end.


(** The many-to-many association [Backends] of a backend set lives in the
    join table. [Clear] removes the links of the set; saving a set with
    [Backends] filled in links it to each of them (gorm saves the
    association with the struct, ON CONFLICT DO NOTHING); [Replace] leaves
    exactly the given links. The backends named in [Backends] are taken to
    exist: the upsert of their own rows is not part of the model. *)
Definition clear_links (id : N) (join : list (N * N)) : list (N * N) :=
  List.filter (fun p => negb (fst p =? id)%N) join.

Definition has_link (p : N * N) (join : list (N * N)) : bool :=
  existsb (fun q => (fst q =? fst p)%N && (snd q =? snd p)%N) join.

Definition add_links (id : N) (bs : list Backend) (join : list (N * N)) : list (N * N) :=
  foldl (fun j b => if has_link (id, Backend_ID b) j then j else j ++ [(id, Backend_ID b)])
        join bs.

Definition replace_links (id : N) (bs : list Backend) (join : list (N * N)) : list (N * N) :=
  add_links id bs (clear_links id join).

(** CreateBackendSet creates a new backend set *)
Definition CreateBackendSet (f : Faults) (backendSet : BackendSet) (changedBy : string)
    (db : DB) : option error * BackendSet * DB :=
  (* First create the backend set *)
  match Create f 0 backendSet (backend_sets db) with
  | inl err => (Some err, backendSet, db)
  | inr (backendSet, t) =>
      let tx := with_backend_sets t db in
      let tx := with_backend_set_backends
                  (add_links (BackendSet_ID backendSet) (Backends backendSet)
                     (backend_set_backends tx)) tx in
      (* Then associate the backends *)
      let associated :=
        if (0 <? length (Backends backendSet))%nat then
          match f 1%nat with
          | Some text => inl (driver_error text)
          | None =>
              inr (with_backend_set_backends
                     (replace_links (BackendSet_ID backendSet) (Backends backendSet)
                        (backend_set_backends tx)) tx)
          end
        else inr tx in
      match associated with
      | inl err => (Some err, backendSet, db)
      | inr tx =>
          match Create_ConfigChange f 2
                  (change "create" "backend_set" (BackendSet_ID backendSet)
                     ("Created backend set " +:+ BackendSet_Name backendSet) changedBy) tx with
          | inl err => (Some err, backendSet, db)
          | inr tx => let '(e, db') := Commit f 3 tx db in (e, backendSet, db')
          end
      end
  end.

(** UpdateBackendSet updates an existing backend set *)
Definition UpdateBackendSet (f : Faults) (backendSet : BackendSet) (changedBy : string)
    (db : DB) : option error * BackendSet * DB :=
  (* Clear existing backends associations and re-add them *)
  match f 0%nat with
  | Some text => (Some (driver_error text), backendSet, db)
  | None =>
      let tx := with_backend_set_backends
                  (clear_links (BackendSet_ID backendSet) (backend_set_backends db)) db in
      match Save f 1 backendSet (backend_sets tx) with
      | inl err => (Some err, backendSet, db)
      | inr (backendSet, t) =>
          let tx := with_backend_sets t tx in
          let tx := with_backend_set_backends
                      (add_links (BackendSet_ID backendSet) (Backends backendSet)
                         (backend_set_backends tx)) tx in
          match Create_ConfigChange f 2
                  (change "update" "backend_set" (BackendSet_ID backendSet)
                     ("Updated backend set " +:+ BackendSet_Name backendSet) changedBy) tx with
          | inl err => (Some err, backendSet, db)
          | inr tx => let '(e, db') := Commit f 3 tx db in (e, backendSet, db')
          end
      end
  end.

(** DeleteBackendSet deletes a backend set by ID *)
Definition DeleteBackendSet (f : Faults) (id : N) (changedBy : string) (db : DB) : option error * DB :=
  match First f 0 id (backend_sets db) with
  | inl err => (Some err, db)
  | inr backendSet =>
      (* Check if there are any rules using this backend set *)
      match Count f 1 (fun r => (BackendSetID r =? id)%N) (rules db) with
      | inl err => (Some err, db)
      | inr count =>
          if 0 <? count then
            (Some (Errorf ("cannot delete backend set: it is used by "
                           +:+ pretty count +:+ " rules")), db)
          else
            (* Remove associations with backends *)
            match f 2%nat with
            | Some text => (Some (driver_error text), db)
            | None =>
                let tx := with_backend_set_backends
                            (clear_links (BackendSet_ID backendSet) (backend_set_backends db)) db in
                (* Delete the backend set *)
                match Delete f 3 (has_ID (BackendSet_ID backendSet)) (backend_sets tx) with
                | inl err => (Some err, db)
                | inr t =>
                    let tx := with_backend_sets t tx in
                    match Create_ConfigChange f 4
                            (change "delete" "backend_set" id
                               ("Deleted backend set " +:+ BackendSet_Name backendSet)
                               changedBy) tx with
                    | inl err => (Some err, db)
                    | inr tx => Commit f 5 tx db
                    end
                end
            end
      end
  end.

(** CreateSourceDefinition creates a new source definition *)
Definition CreateSourceDefinition (f : Faults) (sourceDefinition : SourceDefinition)
    (changedBy : string) (db : DB) : option error * SourceDefinition * DB :=
  (* Validate the source definition *)
  if negb (Validate sourceDefinition) then
    (Some (Errorf "invalid source definition parameters"), sourceDefinition, db)
  else
    match Create f 0 sourceDefinition (source_definitions db) with
    | inl err => (Some err, sourceDefinition, db)
    | inr (sourceDefinition, t) =>
        let tx := with_source_definitions t db in
        match Create_ConfigChange f 1
                (change "create" "source_definition" (SourceDefinition_ID sourceDefinition)
                   ("Created source definition " +:+ SourceDefinition_Name sourceDefinition)
                   changedBy) tx with
        | inl err => (Some err, sourceDefinition, db)
        | inr tx => let '(e, db') := Commit f 2 tx db in (e, sourceDefinition, db')
        end
    end.

(** UpdateSourceDefinition updates an existing source definition *)
Definition UpdateSourceDefinition (f : Faults) (sourceDefinition : SourceDefinition)
    (changedBy : string) (db : DB) : option error * SourceDefinition * DB :=
  (* Validate the source definition *)
  if negb (Validate sourceDefinition) then
    (Some (Errorf "invalid source definition parameters"), sourceDefinition, db)
  else
    match Save f 0 sourceDefinition (source_definitions db) with
    | inl err => (Some err, sourceDefinition, db)
    | inr (sourceDefinition, t) =>
        let tx := with_source_definitions t db in
        match Create_ConfigChange f 1
                (change "update" "source_definition" (SourceDefinition_ID sourceDefinition)
                   ("Updated source definition " +:+ SourceDefinition_Name sourceDefinition)
                   changedBy) tx with
        | inl err => (Some err, sourceDefinition, db)
        | inr tx => let '(e, db') := Commit f 2 tx db in (e, sourceDefinition, db')
        end
    end.

(** DeleteSourceDefinition deletes a source definition by ID *)
Definition DeleteSourceDefinition (f : Faults) (id : N) (changedBy : string)
    (db : DB) : option error * DB :=
  match First f 0 id (source_definitions db) with
  | inl err => (Some err, db)
  | inr sourceDefinition =>
      (* Check if there are any rules using this source definition *)
      match Count f 1 (fun r => (SourceDefinitionID r =? id)%N) (rules db) with
      | inl err => (Some err, db)
      | inr count =>
          if 0 <? count then
            (Some (Errorf ("cannot delete source definition: it is used by "
                           +:+ pretty count +:+ " rules")), db)
          else
            match Delete f 2 (has_ID (SourceDefinition_ID sourceDefinition))
                    (source_definitions db) with
            | inl err => (Some err, db)
            | inr t =>
                let tx := with_source_definitions t db in
                match Create_ConfigChange f 3
                        (change "delete" "source_definition" id
                           ("Deleted source definition "
                            +:+ SourceDefinition_Name sourceDefinition) changedBy) tx with
                | inl err => (Some err, db)
                | inr tx => Commit f 4 tx db
                end
            end
      end
  end.

(** CreateRule creates a new rule *)
Definition CreateRule (f : Faults) (rule : Rule) (changedBy : string)
    (db : DB) : option error * Rule * DB :=
  match Create f 0 rule (rules db) with
  | inl err => (Some err, rule, db)
  | inr (rule, t) =>
      let tx := with_rules t db in
      match Create_ConfigChange f 1
              (change "create" "rule" (Rule_ID rule)
                 ("Created rule with priority " +:+ pretty (Priority rule)) changedBy) tx with
      | inl err => (Some err, rule, db)
      | inr tx => let '(e, db') := Commit f 2 tx db in (e, rule, db')
      end
  end.

(** UpdateRule updates an existing rule *)
Definition UpdateRule (f : Faults) (rule : Rule) (changedBy : string)
    (db : DB) : option error * Rule * DB :=
  match Save f 0 rule (rules db) with
  | inl err => (Some err, rule, db)
  | inr (rule, t) =>
      let tx := with_rules t db in
      match Create_ConfigChange f 1
              (change "update" "rule" (Rule_ID rule)
                 ("Updated rule with priority " +:+ pretty (Priority rule)) changedBy) tx with
      | inl err => (Some err, rule, db)
      | inr tx => let '(e, db') := Commit f 2 tx db in (e, rule, db')
      end
  end.

(** DeleteRule deletes a rule by ID *)
Definition DeleteRule (f : Faults) (id : N) (changedBy : string) (db : DB) : option error * DB :=
  match First f 0 id (rules db) with
  | inl err => (Some err, db)
  | inr rule =>
      match Delete f 1 (has_ID (Rule_ID rule)) (rules db) with
      | inl err => (Some err, db)
      | inr t =>
          let tx := with_rules t db in
          match Create_ConfigChange f 2
                  (change "delete" "rule" id
                     ("Deleted rule with priority " +:+ pretty (Priority rule)) changedBy) tx with
          | inl err => (Some err, db)
          | inr tx => Commit f 3 tx db
          end
      end
  end.


(** *** Reads *)

Definition zero_SourceDefinition : SourceDefinition :=
  {| SourceDefinition_ID := 0; SourceDefinition_Deleted := false;
     SourceDefinition_Name := ""; SourceDefinition_Description := "";
     Type_ := ""; IPAddress := ""; Subnet := ""; RangeStart := ""; RangeEnd := "" |}.

Definition zero_BackendSet : BackendSet :=
  {| BackendSet_ID := 0; BackendSet_Deleted := false; BackendSet_Name := "";
     BackendSet_Description := ""; Backends := [] |}.

(** [Preload("Addresses", cond)] on a backend *)
Definition preload_Addresses (cond : Address -> bool) (db : DB) (b : Backend) : Backend :=
  {| Backend_ID := Backend_ID b; Backend_Deleted := Backend_Deleted b;
     Backend_Name := Backend_Name b; Backend_Description := Backend_Description b;
     Addresses :=
       List.filter (fun a => live a && (BackendID a =? Backend_ID b)%N && cond a)
                   (addresses db) |}.

(** [Preload("Backends")] on a backend set, with the nested preload [inner]
    of every backend. *)
Definition preload_Backends (inner : Backend -> Backend) (db : DB) (s : BackendSet) : BackendSet :=
  {| BackendSet_ID := BackendSet_ID s; BackendSet_Deleted := BackendSet_Deleted s;
     BackendSet_Name := BackendSet_Name s; BackendSet_Description := BackendSet_Description s;
     Backends :=
       inner <$> List.filter
                   (fun b => live b && has_link (BackendSet_ID s, Backend_ID b)
                                                (backend_set_backends db))
                   (backends db) |}.

(** The preloads of GetActiveRules on one rule: a reference without a live
    row leaves the zero struct. *)
Definition preload_active (db : DB) (r : Rule) : Rule :=
  {| Rule_ID := Rule_ID r; Rule_Deleted := Rule_Deleted r;
     SourceDefinitionID := SourceDefinitionID r;
     Rule_SourceDefinition :=
       default zero_SourceDefinition
         (List.find (fun s => live s && has_ID (SourceDefinitionID r) s) (source_definitions db));
     DestinationPort := DestinationPort r; Protocol := Protocol r;
     BackendSetID := BackendSetID r;
     Rule_BackendSet :=
       default zero_BackendSet
         (preload_Backends (preload_Addresses Available db) db
            <$> List.find (fun s => live s && has_ID (BackendSetID r) s) (backend_sets db));
     Priority := Priority r; Enabled := Enabled r |}.

(** [Order("priority DESC")]: the rows by descending priority. The query
    names no second sort key; rows of equal priority stay in the order the
    scan of the table yields them. *)
Fixpoint insert_by_priority (r : Rule) (sorted : list Rule) : list Rule :=
  match sorted with
  | [] => [r]
  | x :: rest =>
      if Priority x <=? Priority r then r :: sorted
      else x :: insert_by_priority r rest
  end.

Definition order_by_priority_desc (rows : list Rule) : list Rule :=
  foldr insert_by_priority [] rows.

(** GetActiveRules retrieves only enabled rules with their related entities *)
Definition GetActiveRules (f : Faults) (db : DB) : option error * list Rule :=
  match f 0%nat with
  | Some text => (Some (driver_error text), [])
  | None =>
      (None,
       preload_active db
         <$> order_by_priority_desc (List.filter (fun r => live r && Enabled r) (rules db)))
  end.

(** GetAvailableBackendAddresses gets all available addresses for a given
    backend set. The query is raw SQL over the three tables: it joins every
    row, soft-deleted ones too. *)
Definition GetAvailableBackendAddresses (f : Faults) (backendSetID : N) (db : DB)
    : option error * list Address :=
  match f 0%nat with
  | Some text => (Some (driver_error text), [])
  | None =>
      (None,
       flat_map (fun a =>
         flat_map (fun b =>
           flat_map (fun bsb =>
             if (Backend_ID b =? snd bsb)%N && (fst bsb =? backendSetID)%N && Available a
             then [a] else [])
           (backend_set_backends db))
         (List.filter (fun b => (BackendID a =? Backend_ID b)%N) (backends db)))
       (addresses db))
  end.

(** GetAllBackends retrieves all backends from the database *)
Definition GetAllBackends (f : Faults) (db : DB) : option error * list Backend :=
  match f 0%nat with
  | Some text => (Some (driver_error text), [])
  | None => (None, preload_Addresses (fun _ => true) db <$> List.filter live (backends db))
  end.

(** GetBackend retrieves a backend by ID *)
Definition GetBackend (f : Faults) (id : N) (db : DB) : error + Backend :=
  match First f 0 id (backends db) with
  | inl err => inl err
  | inr backend => inr (preload_Addresses (fun _ => true) db backend)
  end.

End database.

(** ** Package health (internal/health)

    Every probe of a tick runs in its own goroutine and reaches the store
    through [LogAvailabilityChange], which holds the mutex of the store:
    the writes of a tick happen one after the other, in an order the
    scheduler picks. The order is the list [schedule] below. *)
Module health.
Import models.

(** [net.DialTimeout("tcp", ip:port, timeout)] as seen by the checker:
    [None] when the connection was made, else the text of the error. *)
Definition Dial := string -> Z -> option string.

(** checkAddress tests if a TCP endpoint is reachable *)
Definition checkAddress (dial : Dial) (ip : string) (port : Z) : bool * option string :=
  match dial ip port with
  | Some err => (false, Some err)
  | None => (true, None)
  end.

(** The body of the goroutine of one address: [address] is the row as
    GetAllBackends read it at the start of the tick, [f] the fault oracle
    of its call of LogAvailabilityChange, [checkTime] and [lastChecked]
    the clock readings of that call. *)
Definition probe (dial : Dial) (f : database.Faults) (checkTime lastChecked : Z)
    (address : Address) (db : database.DB) : database.DB :=
  let '(available, err) := checkAddress dial (IP address) (Port address) in
  (* Only log and update if status changed *)
  if negb (Bool.eqb available (Available address)) then
    let errStr := match err with Some text => text | None => "" end in
    snd (database.LogAvailabilityChange f (Address_ID address) available errStr
           checkTime lastChecked db)
  else db.

Fixpoint probes (dial : Dial) (fs : nat -> database.Faults) (clock : nat -> Z * Z)
    (i : nat) (schedule : list Address) (db : database.DB) : database.DB :=
  match schedule with
  | [] => db
  | address :: rest =>
      probes dial fs clock (S i) rest
        (probe dial (fs i) (fst (clock i)) (snd (clock i)) address db)
  end.

(** The addresses a tick probes: those of every backend GetAllBackends
    returned. *)
Definition snapshot (backends : list Backend) : list Address :=
  flat_map Addresses backends.

(** checkAllBackends performs health checks on all backend addresses.
    [order] is the order in which the scheduler lets the probes write. *)
Definition checkAllBackends (dial : Dial) (fg : database.Faults)
    (fs : nat -> database.Faults) (clock : nat -> Z * Z)
    (order : list Address -> list Address) (db : database.DB)
    : option string * database.DB :=
  match database.GetAllBackends fg db with
  | (Some err, _) => (Some ("failed to get backends: " +:+ database.Error err), db)
  | (None, backends) => (None, probes dial fs clock 0 (order (snapshot backends)) db)
  end.

End health.

(** ** Package main: the reconciliation tick *)
Module main.
Import models.

(** The loop of updateNFTables that fills [backendAddresses]; [fa i] is the
    fault oracle of the query made for the i-th rule. A failed query is
    logged and leaves the map as it is. *)
Fixpoint collect_addresses (fa : nat -> database.Faults) (i : nat) (rules : list Rule)
    (db : database.DB) (backendAddresses : gmap N (list Address)) : gmap N (list Address) :=
  match rules with
  | [] => backendAddresses
  | rule :: rest =>
      match database.GetAvailableBackendAddresses (fa i) (BackendSetID rule) db with
      | (Some _, _) => collect_addresses fa (S i) rest db backendAddresses
      | (None, addresses) =>
          collect_addresses fa (S i) rest db (<[BackendSetID rule := addresses]> backendAddresses)
      end
  end.

(** updateNFTables applies the current configuration to nftables *)
Definition updateNFTables (fr : database.Faults) (fa : nat -> database.Faults)
    (flush : option string) (db : database.DB) (nft : nftables.Manager)
    : option string * nftables.Manager :=
  match database.GetActiveRules fr db with
  | (Some err, _) => (Some ("failed to get active rules: " +:+ database.Error err), nft)
  | (None, rules) =>
      let backendAddresses := collect_addresses fa 0 rules db ∅ in
      let '(e, nft', _) := nftables.ApplyRules nft flush rules backendAddresses in
      (e, nft')
  end.

(** Config holds the application configuration; durations are in
    nanoseconds. *)
Record Config := {
  LogLevel : string;
  DBHost : string;
  DBPort : Z;
  DBUser : string;
  DBPassword : string;
  DBName : string;
  DBSSLMode : string;
  APIListenAddr : string;
  UpdateInterval : Z;
  HealthCheckTimeout : Z;
  HealthCheckInterval : Z;
  NFTablesTable : string;
  NFTablesChain : string
}.

Definition Second : Z := 1000000000.

(** defaultConfig returns the default configuration *)
Definition defaultConfig : Config :=
  {| LogLevel := "info"; DBHost := "localhost"; DBPort := 5432; DBUser := "postgres";
     DBPassword := ""; DBName := "nftables"; DBSSLMode := "disable";
     APIListenAddr := ":8080"; UpdateInterval := 30 * Second;
     HealthCheckTimeout := 5 * Second; HealthCheckInterval := 60 * Second;
     NFTablesTable := "nat"; NFTablesChain := "prerouting" |}.

Definition is_empty (s : string) : bool := (s =? "")%string.

(** validateConfig checks if all required fields are present; [None] is
    the nil error. *)
Definition validateConfig (config : Config) : option string :=
  if is_empty (DBHost config) then Some "missing required parameter: db_host"
  else if DBPort config =? 0 then Some "missing required parameter: db_port"
  else if is_empty (DBUser config) then Some "missing required parameter: db_user"
  else if is_empty (DBName config) then Some "missing required parameter: db_name"
  else if is_empty (APIListenAddr config) then Some "missing required parameter: api_listen"
  else if is_empty (NFTablesTable config) then Some "missing required parameter: nft_table"
  else if is_empty (NFTablesChain config) then Some "missing required parameter: nft_chain"
  else None.

(** The values of the command-line flags after [flag.Parse()]; the
    default of every override flag is the zero value of its type. *)
Record Flags := {
  configFile : string;
  logLevel : string;
  dbHost : string;
  dbPort : Z;
  dbUser : string;
  dbPassword : string;
  dbName : string;
  dbSSLMode : string;
  apiListenAddr : string;
  updateInterval : Z;
  healthCheckTimeout : Z;
  healthCheckInterval : Z;
  nftTable : string;
  nftChain : string
}.

Definition override_string (flag current : string) : string :=
  if is_empty flag then current else flag.

Definition override_number (flag current : Z) : Z :=
  if flag =? 0 then current else flag.

(** The block "Override config with command-line flags if provided" of
    parseConfig. *)
Definition override (config : Config) (flags : Flags) : Config :=
  {| LogLevel := override_string (logLevel flags) (LogLevel config);
     DBHost := override_string (dbHost flags) (DBHost config);
     DBPort := override_number (dbPort flags) (DBPort config);
     DBUser := override_string (dbUser flags) (DBUser config);
     DBPassword := override_string (dbPassword flags) (DBPassword config);
     DBName := override_string (dbName flags) (DBName config);
     DBSSLMode := override_string (dbSSLMode flags) (DBSSLMode config);
     APIListenAddr := override_string (apiListenAddr flags) (APIListenAddr config);
     UpdateInterval := override_number (updateInterval flags) (UpdateInterval config);
     HealthCheckTimeout := override_number (healthCheckTimeout flags) (HealthCheckTimeout config);
     HealthCheckInterval :=
       override_number (healthCheckInterval flags) (HealthCheckInterval config);
     NFTablesTable := override_string (nftTable flags) (NFTablesTable config);
     NFTablesChain := override_string (nftChain flags) (NFTablesChain config) |}.

(** What the file system and the YAML decoder give parseConfig for the
    path of the [-config] flag. *)
Inductive config_file :=
| no_file                                  (* os.Stat fails *)
| unreadable                               (* os.ReadFile or yaml.Unmarshal fails *)
| decoded (fill : Config -> Config).       (* the fields the file sets, over the defaults *)

Inductive parsed :=
| exit_1
| configured (config : Config).

(** parseConfig loads the configuration from file and command-line flags.
    The warning for a named file that does not exist is printed and has no
    other effect. *)
Definition parseConfig (file : config_file) (flags : Flags) : parsed :=
  let config := defaultConfig in
  match file with
  | unreadable => exit_1
  | _ =>
      let config := match file with decoded fill => fill config | _ => config end in
      let config := override config flags in
      match validateConfig config with
      | Some _ => exit_1
      | None => configured config
      end
  end.

End main.

(** ** Package api (internal/api) *)
Module api.
Import models database.

(** [strconv.ParseUint(s, 10, 32)]; [None] is the error return. *)
Fixpoint ParseUint_loop (s : list ascii) (n : N) : option N :=
  match s with
  | [] => Some n
  | c :: rest =>
      if net.is_digit c then
        let n1 := (n * 10 + Z.to_N (net.code c - 48))%N in
        if (4294967295 <? n1)%N then None else ParseUint_loop rest n1
      else None
  end.

Definition ParseUint (s : string) : option N :=
  match net.chars s with
  | [] => None
  | cs => ParseUint_loop cs 0
  end.

Definition StatusOK : Z := 200.
Definition StatusCreated : Z := 201.
Definition StatusNoContent : Z := 204.
Definition StatusBadRequest : Z := 400.
Definition StatusNotFound : Z := 404.
Definition StatusInternalServerError : Z := 500.

(** What a handler writes: [c.JSON(status, ...)] or [c.Status(status)]. *)
Inductive body :=
| no_body
| error_body (text : string)         (* gin.H{"error": text} *)
| Rule_body (rule : Rule)
| Address_body (address : Address).

Record response := { status : Z; content : body }.

Definition JSON (code : Z) (b : body) : response := {| status := code; content := b |}.

(** In every handler [param] is [c.Param("id")], [bound] is the result of
    [c.ShouldBindJSON] on the request body (the struct, or the text of the
    binding error) and [clientIP] is [c.ClientIP()]. *)

Definition deleteBackendSet (f : database.Faults) (param clientIP : string)
    (db : database.DB) : response * database.DB :=
  match ParseUint param with
  | None => (JSON StatusBadRequest (error_body "Invalid ID format"), db)
  | Some id =>
      match database.DeleteBackendSet f id clientIP db with
      | (Some err, db') => (JSON StatusInternalServerError (error_body (database.Error err)), db')
      | (None, db') => (JSON StatusNoContent no_body, db')
      end
  end.

Definition deleteSourceDefinition (f : database.Faults) (param clientIP : string)
    (db : database.DB) : response * database.DB :=
  match ParseUint param with
  | None => (JSON StatusBadRequest (error_body "Invalid ID format"), db)
  | Some id =>
      match database.DeleteSourceDefinition f id clientIP db with
      | (Some err, db') => (JSON StatusInternalServerError (error_body (database.Error err)), db')
      | (None, db') => (JSON StatusNoContent no_body, db')
      end
  end.

Definition createRule (f : database.Faults) (bound : string + Rule) (clientIP : string)
    (db : database.DB) : response * database.DB :=
  match bound with
  | inl text => (JSON StatusBadRequest (error_body text), db)
  | inr rule =>
      (* Validate the rule *)
      if (SourceDefinitionID rule =? 0)%N then
        (JSON StatusBadRequest (error_body "Source definition ID is required"), db)
      else if (BackendSetID rule =? 0)%N then
        (JSON StatusBadRequest (error_body "Backend set ID is required"), db)
      else
        match database.CreateRule f rule clientIP db with
        | (Some err, _, db') =>
            (JSON StatusInternalServerError (error_body (database.Error err)), db')
        | (None, rule, db') => (JSON StatusCreated (Rule_body rule), db')
        end
  end.

Definition with_Rule_ID (id : N) (rule : Rule) : Rule := database.set_ID id rule.

Definition updateRule (f : database.Faults) (param : string) (bound : string + Rule)
    (clientIP : string) (db : database.DB) : response * database.DB :=
  match ParseUint param with
  | None => (JSON StatusBadRequest (error_body "Invalid ID format"), db)
  | Some id =>
      match bound with
      | inl text => (JSON StatusBadRequest (error_body text), db)
      | inr rule =>
          let rule := with_Rule_ID id rule in
          (* Validate the rule *)
          if (SourceDefinitionID rule =? 0)%N then
            (JSON StatusBadRequest (error_body "Source definition ID is required"), db)
          else if (BackendSetID rule =? 0)%N then
            (JSON StatusBadRequest (error_body "Backend set ID is required"), db)
          else
            match database.UpdateRule f rule clientIP db with
            | (Some err, _, db') =>
                (JSON StatusInternalServerError (error_body (database.Error err)), db')
            | (None, rule, db') => (JSON StatusOK (Rule_body rule), db')
            end
      end
  end.

(** [fg] is the fault oracle of the call of GetAddress, [fu] that of
    UpdateAddress. *)
Definition updateAddress (fg fu : database.Faults) (param : string) (bound : string + Address)
    (clientIP : string) (db : database.DB) : response * database.DB :=
  match ParseUint param with
  | None => (JSON StatusBadRequest (error_body "Invalid ID format"), db)
  | Some id =>
      (* Check if the address exists *)
      match database.GetAddress fg id db with
      | inl _ => (JSON StatusNotFound (error_body "Address not found"), db)
      | inr existingAddress =>
          match bound with
          | inl text => (JSON StatusBadRequest (error_body text), db)
          | inr address =>
              (* Keep the original backend ID *)
              let address :=
                {| Address_ID := id; Address_Deleted := Address_Deleted address;
                   BackendID := BackendID existingAddress; IP := IP address;
                   Port := Port address; Available := Available address;
                   LastChecked := LastChecked address |} in
              (* Validate the IP address *)
              if net.is_nil (net.ParseIP (IP address)) then
                (JSON StatusBadRequest (error_body "Invalid IP address"), db)
              else
                match database.UpdateAddress fu address clientIP db with
                | (Some err, _, db') =>
                    (JSON StatusInternalServerError (error_body (database.Error err)), db')
                | (None, address, db') => (JSON StatusOK (Address_body address), db')
                end
          end
      end
  end.

Definition addBackendAddress (fg fc : database.Faults) (param : string)
    (bound : string + Address) (clientIP : string) (db : database.DB)
    : response * database.DB :=
  match ParseUint param with
  | None => (JSON StatusBadRequest (error_body "Invalid backend ID format"), db)
  | Some backendID =>
      (* Check if the backend exists *)
      match database.GetBackend fg backendID db with
      | inl _ => (JSON StatusNotFound (error_body "Backend not found"), db)
      | inr _ =>
          match bound with
          | inl text => (JSON StatusBadRequest (error_body text), db)
          | inr address =>
              (* Validate the IP address *)
              if net.is_nil (net.ParseIP (IP address)) then
                (JSON StatusBadRequest (error_body "Invalid IP address"), db)
              else
                match database.CreateAddress fc backendID address clientIP db with
                | (Some err, _, db') =>
                    (JSON StatusInternalServerError (error_body (database.Error err)), db')
                | (None, address, db') => (JSON StatusCreated (Address_body address), db')
                end
          end
      end
  end.

Definition deleteRule (f : database.Faults) (param clientIP : string)
    (db : database.DB) : response * database.DB :=
  match ParseUint param with
  | None => (JSON StatusBadRequest (error_body "Invalid ID format"), db)
  | Some id =>
      match database.DeleteRule f id clientIP db with
      | (Some err, db') => (JSON StatusInternalServerError (error_body (database.Error err)), db')
      | (None, db') => (JSON StatusNoContent no_body, db')
      end
  end.

(** [strconv.Atoi] on a 64-bit platform: an optional sign, then decimal
    digits, at least one, with a value that fits an [int]; [None] is the
    error return. *)
Fixpoint digits_value (s : list ascii) (n : Z) : option Z :=
  match s with
  | [] => Some n
  | c :: rest =>
      if net.is_digit c then digits_value rest (n * 10 + (net.code c - 48)) else None
  end.

Definition Atoi (s : string) : option Z :=
  let '(negative, digits) :=
    match net.chars s with
    | c :: rest =>
        if net.is_char c 45 then (true, rest)
        else if net.is_char c 43 then (false, rest)
        else (false, c :: rest)
    | [] => (false, [])
    end in
  match digits with
  | [] => None
  | _ =>
      match digits_value digits 0 with
      | None => None
      | Some n =>
          let v := if negative then - n else n in
          if (v <? - 9223372036854775808) || (9223372036854775807 <? v) then None
          else Some v
      end
  end.

(** The pagination of getConfigLogs and getAvailabilityLogs: [limit] and
    [offset] as the handler passes them to the store, from the query
    parameters ([""], when the parameter is absent). *)
Definition pagination (limitParam offsetParam : string) : Z * Z :=
  let limit :=
    if negb (limitParam =? "")%string then
      match Atoi limitParam with
      | Some parsedLimit => if 0 <? parsedLimit then parsedLimit else 100
      | None => 100
      end
    else 100 in
  let offset :=
    if negb (offsetParam =? "")%string then
      match Atoi offsetParam with
      | Some parsedOffset => if 0 <=? parsedOffset then parsedOffset else 0
      | None => 0
      end
    else 0 in
  (limit, offset).

End api.

(** ** The literal scenario of the specification

    Backends b1 = {10.0.0.10:80} and b2 = {10.0.0.11:80}, the backend set
    S = {b1, b2}, the source definition Sub = subnet(10.1.0.0/16) and the
    rule R = {src = Sub, dport = 80, proto = tcp, bset = S, priority = 100}. *)
Module scenario.
Import models.

Definition address (id backend : N) (ip : string) (port : Z) (available : bool) : Address :=
  {| Address_ID := id; Address_Deleted := false; BackendID := backend;
     IP := ip; Port := port; Available := available; LastChecked := 0 |}.

Definition a1 : Address := address 1 1 "10.0.0.10" 80 true.
Definition a2 : Address := address 2 2 "10.0.0.11" 80 true.

Definition backend (id : N) (name : string) : Backend :=
  {| Backend_ID := id; Backend_Deleted := false; Backend_Name := name;
     Backend_Description := ""; Addresses := [] |}.

Definition b1 : Backend := backend 1 "b1".
Definition b2 : Backend := backend 2 "b2".

Definition S : BackendSet :=
  {| BackendSet_ID := 1; BackendSet_Deleted := false; BackendSet_Name := "S";
     BackendSet_Description := ""; Backends := [] |}.

Definition source (id : N) (name type ip subnet range_start range_end : string)
    : SourceDefinition :=
  {| SourceDefinition_ID := id; SourceDefinition_Deleted := false;
     SourceDefinition_Name := name; SourceDefinition_Description := "";
     Type_ := type; IPAddress := ip; Subnet := subnet;
     RangeStart := range_start; RangeEnd := range_end |}.

Definition Sub : SourceDefinition := source 1 "Sub" "subnet" "" "10.1.0.0/16" "" "".

(** A rule as a request body or a table row has it: the associations are
    empty until a read preloads them. *)
Definition rule (id : N) (port : Z) (protocol : string) (priority : Z) (enabled : bool) : Rule :=
  {| Rule_ID := id; Rule_Deleted := false; SourceDefinitionID := 1;
     Rule_SourceDefinition := database.zero_SourceDefinition;
     DestinationPort := port; Protocol := protocol; BackendSetID := 1;
     Rule_BackendSet := database.zero_BackendSet;
     Priority := priority; Enabled := enabled |}.

(** The same rule as GetActiveRules hands it to the compiler, as far as the
    compiler reads it. *)
Definition loaded (r : Rule) : Rule :=
  {| Rule_ID := Rule_ID r; Rule_Deleted := Rule_Deleted r;
     SourceDefinitionID := SourceDefinitionID r; Rule_SourceDefinition := Sub;
     DestinationPort := DestinationPort r; Protocol := Protocol r;
     BackendSetID := BackendSetID r; Rule_BackendSet := Rule_BackendSet r;
     Priority := Priority r; Enabled := Enabled r |}.

Definition R : Rule := rule 1 80 "tcp" 100 true.

Definition store : database.DB :=
  {| database.backends := [b1; b2];
     database.addresses := [a1; a2];
     database.backend_sets := [S];
     database.backend_set_backends := [(1%N, 1%N); (1%N, 2%N)];
     database.source_definitions := [Sub];
     database.rules := [R];
     database.config_changes := [];
     database.availability_logs := [] |}.

Definition rng0 : nftables.Rand := {| nftables.draws := fun _ => O; nftables.position := O |}.

Definition manager : nftables.Manager := {| nftables.rng := rng0; nftables.chain := [] |}.

Definition available : gmap N (list Address) := {[ 1%N := [a1; a2] ]}.

End scenario.

(** ** The vocabulary of the properties *)
Module props.
Import models.

(** The tag ApplyRules gives the kernel rule of a rule. *)
Definition rule_tag (r : Rule) : string := "rule_id:" +:+ pretty (Rule_ID r).




(** The live rules that refer to a backend set, or to a source
    definition: what the two delete methods count. *)
Definition rules_of_backend_set (id : N) (db : database.DB) : list Rule :=
  List.filter (λ r, database.live r && (BackendSetID r =? id)%N) (database.rules db).

Definition rules_of_source_definition (id : N) (db : database.DB) : list Rule :=
  List.filter (λ r, database.live r && (SourceDefinitionID r =? id)%N) (database.rules db).

(** The text of the in-use error for [count] referring rules. *)
Definition in_use (entity : string) (count : nat) : string :=
  "cannot delete " +:+ entity +:+ ": it is used by " +:+ pretty (Z.of_nat count) +:+ " rules".

(** The live row of a table with this key, if there is one. *)
Definition stored {A} `{database.Row A} (id : N) (t : list A) : option A :=
  List.find (λ r, database.live r && database.has_ID id r) t.

(** The store of the scenario with its rule R disabled. *)
Definition store_with_disabled_rule : database.DB :=
  database.with_rules [scenario.rule 1 80 "tcp" 100 false] scenario.store.

(** A database that answers the first statement of a call and fails the
    second. *)
Definition second_statement_fails : database.Faults :=
  λ k, if (k =? 1)%nat then Some "connection lost" else None.



(** The port a two-byte big-endian operand stands for. *)
Definition port_of (data : list byte) : Z :=
  match data with
  | [hi; lo] => hi * 256 + lo
  | _ => -1
  end.

(** The operand of the destination-port comparison of a compiled rule. *)
Definition compiled_port (rule : Rule) : Z :=
  match nftables.destination_port_match rule with
  | [_; nftables.Cmp _ _ data] => port_of data
  | _ => -1
  end.

(** The write path of the store: the fifteen create, update and delete
    methods, each with its arguments. *)
Inductive mutation :=
| create_backend (backend : Backend)
| update_backend (backend : Backend)
| delete_backend (id : N)
| create_address (backendID : N) (address : Address)
| update_address (address : Address)
| delete_address (id : N)
| create_backend_set (backendSet : BackendSet)
| update_backend_set (backendSet : BackendSet)
| delete_backend_set (id : N)
| create_source_definition (sourceDefinition : SourceDefinition)
| update_source_definition (sourceDefinition : SourceDefinition)
| delete_source_definition (id : N)
| create_rule (rule : Rule)
| update_rule (rule : Rule)
| delete_rule (id : N).

(** The call of the method: its error, the id of the entity it worked on
    (as the database assigned it, for a struct passed with a zero id) and
    the state after the call. *)
Definition run (f : database.Faults) (m : mutation) (changedBy : string) (db : database.DB)
    : option database.error * N * database.DB :=
  match m with
  | create_backend b =>
      let '(e, b', db') := database.CreateBackend f b changedBy db in (e, Backend_ID b', db')
  | update_backend b =>
      let '(e, b', db') := database.UpdateBackend f b changedBy db in (e, Backend_ID b', db')
  | delete_backend id =>
      let '(e, db') := database.DeleteBackend f id changedBy db in (e, id, db')
  | create_address backendID a =>
      let '(e, a', db') := database.CreateAddress f backendID a changedBy db in
      (e, Address_ID a', db')
  | update_address a =>
      let '(e, a', db') := database.UpdateAddress f a changedBy db in (e, Address_ID a', db')
  | delete_address id =>
      let '(e, db') := database.DeleteAddress f id changedBy db in (e, id, db')
  | create_backend_set s =>
      let '(e, s', db') := database.CreateBackendSet f s changedBy db in
      (e, BackendSet_ID s', db')
  | update_backend_set s =>
      let '(e, s', db') := database.UpdateBackendSet f s changedBy db in
      (e, BackendSet_ID s', db')
  | delete_backend_set id =>
      let '(e, db') := database.DeleteBackendSet f id changedBy db in (e, id, db')
  | create_source_definition s =>
      let '(e, s', db') := database.CreateSourceDefinition f s changedBy db in
      (e, SourceDefinition_ID s', db')
  | update_source_definition s =>
      let '(e, s', db') := database.UpdateSourceDefinition f s changedBy db in
      (e, SourceDefinition_ID s', db')
  | delete_source_definition id =>
      let '(e, db') := database.DeleteSourceDefinition f id changedBy db in (e, id, db')
  | create_rule r =>
      let '(e, r', db') := database.CreateRule f r changedBy db in (e, Rule_ID r', db')
  | update_rule r =>
      let '(e, r', db') := database.UpdateRule f r changedBy db in (e, Rule_ID r', db')
  | delete_rule id =>
      let '(e, db') := database.DeleteRule f id changedBy db in (e, id, db')
  end.





(** The expressions [es] are a full compilation of [rule] with the DNAT
    target taken from [addresses]: protocol match, destination-port match,
    the source match of the rule's source definition, and the DNAT to one
    address of the list whose IP is an IPv4 literal. *)
Definition compiled_from (rule : Rule) (addresses : list Address)
    (es : list nftables.Any) : Prop :=
  ∃ protoNum src a,
    ((Protocol rule = "tcp" ∧ protoNum = 6) ∨ (Protocol rule = "udp" ∧ protoNum = 17))
    ∧ nftables.source_address_match (Rule_SourceDefinition rule) = inr src
    ∧ a ∈ addresses
    ∧ net.To4 (net.ParseIP (IP a)) ≠ []
    ∧ es = nftables.protocol_match protoNum ++ nftables.destination_port_match rule
           ++ src ++ nftables.dnat (net.To4 (net.ParseIP (IP a))) a.

(** A network in which every dial connects, and one in which none does. *)
Definition all_up : health.Dial := λ _ _, None.

Definition all_down : health.Dial := λ _ _, Some "connection refused".

(** The row of an address after an availability change was recorded. *)
Definition flagged (available : bool) (lastChecked : Z) (a : Address) : Address :=
  {| Address_ID := Address_ID a; Address_Deleted := Address_Deleted a;
     BackendID := BackendID a; IP := IP a; Port := Port a;
     Available := available; LastChecked := lastChecked |}.

(** The primary keys of the five entity tables are unique. *)
Definition keys_unique (db : database.DB) : Prop :=
  NoDup (Backend_ID <$> database.backends db)
  ∧ NoDup (Address_ID <$> database.addresses db)
  ∧ NoDup (BackendSet_ID <$> database.backend_sets db)
  ∧ NoDup (SourceDefinition_ID <$> database.source_definitions db)
  ∧ NoDup (Rule_ID <$> database.rules db).


End props.

(** * Properties *)

(** ** The rule compiler *)
Section compiler.
Import models nftables.

Lemma is_nil_true {A} (l : list A) : net.is_nil l = true ↔ l = [].
Proof. destruct l; simpl; split; congruence. Qed.

Lemma compile_without_addresses rng rules (addresses : gmap N (list Address)) :
  (∀ id, addresses !! id = None ∨ addresses !! id = Some []) →
  added (compile rng rules addresses) = []
  ∧ panicked (compile rng rules addresses) = false
  ∧ rng_after (compile rng rules addresses) = rng
  ∧ log (compile rng rules addresses)
    = (λ r, Warnf_no_available_backend_addresses (Rule_ID r) (BackendSetID r)) <$> rules.
Proof.
  intros Hempty. induction rules as [|rule rest IH]; simpl; [done|].
  assert (default [] (addresses !! BackendSetID rule) = []) as ->.
  { destruct (Hempty (BackendSetID rule)) as [-> | ->]; done. }
  simpl. destruct IH as (-> & -> & -> & ->). done.
Qed.

(** The panic of [Intn] on an empty list is never reached from ApplyRules:
    the loop calls generateExpressionsForRule with a non-empty list only. *)
Lemma compile_never_panics rng rules (addresses : gmap N (list Address)) :
  panicked (compile rng rules addresses) = false.
Proof.
  revert rng. induction rules as [|rule rest IH]; intros rng; simpl; [done|].
  destruct (default [] (addresses !! BackendSetID rule)) as [|first others] eqn:Hlist;
    simpl; [apply IH|].
  unfold generateExpressionsForRule.
  destruct (Protocol rule =? "tcp")%string; [|destruct (Protocol rule =? "udp")%string];
    simpl; try apply IH;
    destruct (source_address_match _); simpl; try apply IH;
    destruct (net.is_nil _); simpl; apply IH.
Qed.

(** C7. Whatever the rule list, when the availability map gives no address
    for any backend set (no entry or an empty list), the compiler queues no
    kernel rule, and a committed ApplyRules leaves the chain empty. *)
Theorem empty_availability_emits_no_rules
    (m : Manager) (rules : list Rule) (addresses : gmap N (list Address)) :
  (∀ id, addresses !! id = None ∨ addresses !! id = Some []) →
  added (compile (rng m) rules addresses) = []
  ∧ ∃ entries, ApplyRules m None rules addresses
               = (None, {| rng := rng m; chain := [] |}, entries).
Proof.
  intros Hempty.
  destruct (compile_without_addresses (rng m) rules addresses Hempty)
    as (Hadded & _ & Hrng & _).
  split; [done|]. unfold ApplyRules. rewrite Hadded, Hrng. eauto.
Qed.

Lemma empty_availability_emits_no_rules_witness :
  (∀ id : N, ({[ 1%N := [] ]} : gmap N (list Address)) !! id = None
            ∨ ({[ 1%N := [] ]} : gmap N (list Address)) !! id = Some [])
  ∧ added (compile scenario.rng0
             [scenario.loaded scenario.R; scenario.loaded (scenario.rule 2 443 "udp" 50 true)]
             {[ 1%N := [] ]}) = [].
Proof.
  assert (∀ id : N, ({[ 1%N := [] ]} : gmap N (list Address)) !! id = None
            ∨ ({[ 1%N := [] ]} : gmap N (list Address)) !! id = Some []) as Hempty.
  { intros id. destruct (decide (id = 1%N)) as [-> | Hne].
    - right. apply lookup_singleton_eq.
    - left. apply lookup_singleton_ne. congruence. }
  split; [exact Hempty|].
  exact (proj1 (empty_availability_emits_no_rules scenario.manager _ _ Hempty)).
Defined.

End compiler.

Section compile_order.
Import models nftables props.

Lemma generateExpressionsForRule_protocol rng rule addresses :
  Protocol rule ≠ "tcp" → Protocol rule ≠ "udp" →
  generateExpressionsForRule rng rule addresses
  = (Failed (unsupported_protocol (Protocol rule)), rng).
Proof.
  intros Htcp Hudp. unfold generateExpressionsForRule.
  destruct (String.eqb_spec (Protocol rule) "tcp"); [done|].
  destruct (String.eqb_spec (Protocol rule) "udp"); done.
Qed.

(** C1. The enabled rule R of the scenario with protocol "all" and both
    backend addresses available: generateExpressionsForRule fails with
    "unsupported protocol: all", ApplyRules logs the failure, skips the rule
    and commits an empty chain. *)
Theorem protocol_all_rule_is_skipped :
  let rule := scenario.loaded (scenario.rule 1 80 "all" 100 true) in
  generateExpressionsForRule scenario.rng0 rule [scenario.a1; scenario.a2]
  = (Failed (unsupported_protocol "all"), scenario.rng0)
  ∧ ApplyRules scenario.manager None [rule] scenario.available
    = (None, {| rng := scenario.rng0; chain := [] |},
       [Errorf_failed_to_generate_expressions 1 (unsupported_protocol "all");
        Info_rules_applied]).
Proof. split; reflexivity. Qed.

(** The same rule with protocol "tcp" compiles to the four groups of
    expressions: protocol, destination port, source address, DNAT. *)
Example protocol_tcp_rule_is_emitted :
  added (compile scenario.rng0 [scenario.loaded scenario.R] scenario.available)
  = [ {| Exprs_ :=
           [ Meta MetaKeyL4PROTO 1; Cmp CmpOpEq 1 [6];
             Payload 1 PayloadBaseTransportHeader 2 2; Cmp CmpOpEq 1 [0; 80];
             Payload 1 PayloadBaseNetworkHeader 12 4;
             Bitwise 1 1 4 [255; 255; 0; 0] [0; 0; 0; 0]; Cmp CmpOpEq 1 [10; 1; 0; 0];
             Immediate 1 [10; 0; 0; 10]; Immediate 2 [0; 80];
             NAT NATTypeDestNAT 2 1 2 ];
         UserData := "rule_id:1" |} ].
Proof. reflexivity. Qed.


Lemma insert_by_priority_Permutation r l :
  database.insert_by_priority r l ≡ₚ r :: l.
Proof.
  induction l as [|x l IH]; simpl; [done|].
  destruct (Priority x <=? Priority r); [done|].
  rewrite IH. apply Permutation_swap.
Qed.

Lemma order_by_priority_desc_Permutation rows :
  database.order_by_priority_desc rows ≡ₚ rows.
Proof.
  induction rows as [|r rows IH]; simpl; [done|].
  rewrite insert_by_priority_Permutation. by rewrite IH.
Qed.




End compile_order.

Section active_rules.
Import models nftables props.




(** One reconciliation tick on the scenario: the chain holds exactly the
    kernel rule of R, with DNAT to the first available address for the
    draw 0. *)
Example reconciliation_tick_on_scenario :
  main.updateNFTables database.no_faults (λ _, database.no_faults) None
    scenario.store scenario.manager
  = (None,
     {| rng := {| draws := λ _, O; position := 1 |};
        chain :=
          [ {| Exprs_ :=
                 [ Meta MetaKeyL4PROTO 1; Cmp CmpOpEq 1 [6];
                   Payload 1 PayloadBaseTransportHeader 2 2; Cmp CmpOpEq 1 [0; 80];
                   Payload 1 PayloadBaseNetworkHeader 12 4;
                   Bitwise 1 1 4 [255; 255; 0; 0] [0; 0; 0; 0];
                   Cmp CmpOpEq 1 [10; 1; 0; 0];
                   Immediate 1 [10; 0; 0; 10]; Immediate 2 [0; 80];
                   NAT NATTypeDestNAT 2 1 2 ];
               UserData := "rule_id:1" |} ] |}).
Proof. reflexivity. Qed.

End active_rules.

(** ** The store: referential delete refusal *)
Section in_use.
Import models props.

Lemma First_stored {A} `{database.Row A} f k id (t : list A) x :
  f k = None → stored id t = Some x → database.First f k id t = inr x.
Proof. unfold database.First, stored. by intros -> ->. Qed.

Lemma referring_rule_counted (cond : Rule → bool) (r : Rule) (t : list Rule) :
  r ∈ t → Rule_Deleted r = false → cond r = true →
  (0 < length (List.filter (λ r, database.live r && cond r) t))%nat.
Proof.
  intros Hin Hlive Hcond.
  assert (In r (List.filter (λ r, database.live r && cond r) t)) as Hr.
  { apply filter_In. split; [by apply list_elem_of_In|].
    unfold database.live. simpl. by rewrite Hlive, Hcond. }
  destruct (List.filter _ t); [destruct Hr | simpl; lia].
Qed.

Lemma DeleteBackendSet_in_use f id changedBy db s r :
  stored id (database.backend_sets db) = Some s →
  r ∈ database.rules db → Rule_Deleted r = false → BackendSetID r = id →
  ∃ err, database.DeleteBackendSet f id changedBy db = (Some err, db)
         ∧ (f 0%nat = None → f 1%nat = None →
            err = database.Errorf
                    (in_use "backend set" (length (rules_of_backend_set id db)))).
Proof.
  intros Hs Hin Hlive Href. unfold database.DeleteBackendSet, database.First.
  destruct (f 0%nat) as [text0|] eqn:Hf0; [eexists; split; [done|done]|].
  fold (stored id (database.backend_sets db)). rewrite Hs.
  unfold database.Count.
  destruct (f 1%nat) as [text1|] eqn:Hf1; [eexists; split; [done|done]|].
  pose proof (referring_rule_counted (λ r, (BackendSetID r =? id)%N) r _ Hin Hlive) as Hn.
  simpl in Hn. rewrite Href in Hn. specialize (Hn (N.eqb_refl id)).
  destruct (Z.ltb_spec 0 (Z.of_nat (length
    (List.filter (λ r, database.live r && (BackendSetID r =? id)%N) (database.rules db)))));
    [|lia].
  eexists; split; [done|]. intros _ _. reflexivity.
Qed.

Lemma DeleteSourceDefinition_in_use f id changedBy db s r :
  stored id (database.source_definitions db) = Some s →
  r ∈ database.rules db → Rule_Deleted r = false → SourceDefinitionID r = id →
  ∃ err, database.DeleteSourceDefinition f id changedBy db = (Some err, db)
         ∧ (f 0%nat = None → f 1%nat = None →
            err = database.Errorf
                    (in_use "source definition" (length (rules_of_source_definition id db)))).
Proof.
  intros Hs Hin Hlive Href. unfold database.DeleteSourceDefinition, database.First.
  destruct (f 0%nat) as [text0|] eqn:Hf0; [eexists; split; [done|done]|].
  fold (stored id (database.source_definitions db)). rewrite Hs.
  unfold database.Count.
  destruct (f 1%nat) as [text1|] eqn:Hf1; [eexists; split; [done|done]|].
  pose proof (referring_rule_counted (λ r, (SourceDefinitionID r =? id)%N) r _ Hin Hlive) as Hn.
  simpl in Hn. rewrite Href in Hn. specialize (Hn (N.eqb_refl id)).
  destruct (Z.ltb_spec 0 (Z.of_nat (length
    (List.filter (λ r, database.live r && (SourceDefinitionID r =? id)%N) (database.rules db)))));
    [|lia].
  eexists; split; [done|]. intros _ _. reflexivity.
Qed.

(** C4. A backend set or a source definition that some rule of the store
    refers to, enabled or not: the delete method of the store returns an
    error and the state after the call is the state before it, whatever the
    database does; when the database answers the two reads of the method,
    the error is the in-use error with the number of referring rules. *)
Theorem delete_of_referenced_entity_is_refused
    (f : database.Faults) (id : N) (changedBy : string) (db : database.DB) (r : Rule) :
  r ∈ database.rules db → Rule_Deleted r = false →
  (∀ s, stored id (database.backend_sets db) = Some s → BackendSetID r = id →
     ∃ err, database.DeleteBackendSet f id changedBy db = (Some err, db)
            ∧ (f 0%nat = None → f 1%nat = None →
               err = database.Errorf
                       (in_use "backend set" (length (rules_of_backend_set id db)))))
  ∧ (∀ s, stored id (database.source_definitions db) = Some s → SourceDefinitionID r = id →
     ∃ err, database.DeleteSourceDefinition f id changedBy db = (Some err, db)
            ∧ (f 0%nat = None → f 1%nat = None →
               err = database.Errorf
                       (in_use "source definition"
                          (length (rules_of_source_definition id db))))).
Proof.
  intros Hin Hlive. split; intros s Hs Href.
  - by eapply DeleteBackendSet_in_use.
  - by eapply DeleteSourceDefinition_in_use.
Qed.

Lemma delete_of_referenced_entity_is_refused_witness :
  database.DeleteBackendSet database.no_faults 1 "192.0.2.1" store_with_disabled_rule
  = (Some (database.Errorf "cannot delete backend set: it is used by 1 rules"),
     store_with_disabled_rule)
  ∧ database.DeleteSourceDefinition database.no_faults 1 "192.0.2.1" store_with_disabled_rule
    = (Some (database.Errorf "cannot delete source definition: it is used by 1 rules"),
       store_with_disabled_rule).
Proof.
  assert (scenario.rule 1 80 "tcp" 100 false ∈ database.rules store_with_disabled_rule) as Hin.
  { left. }
  destruct (delete_of_referenced_entity_is_refused database.no_faults 1 "192.0.2.1"
              store_with_disabled_rule _ Hin eq_refl) as [Hset Hsource].
  destruct (Hset scenario.S eq_refl eq_refl) as (e1 & Hcall1 & He1).
  destruct (Hsource scenario.Sub eq_refl eq_refl) as (e2 & Hcall2 & He2).
  rewrite Hcall1, Hcall2, (He1 eq_refl eq_refl), (He2 eq_refl eq_refl).
  split; reflexivity.
Defined.

(** C3, as the handler answers: a DELETE /api/backend-sets/:id for a
    backend set that n >= 1 rules refer to is answered with status 500 and
    the message "cannot delete backend set: it is used by n rules", and the
    backend set remains stored. *)
Theorem delete_of_referenced_backend_set_answers_500
    (f : database.Faults) (param clientIP : string) (db : database.DB)
    (id : N) (s : BackendSet) (r : Rule) :
  api.ParseUint param = Some id →
  stored id (database.backend_sets db) = Some s →
  r ∈ database.rules db → Rule_Deleted r = false → BackendSetID r = id →
  f 0%nat = None → f 1%nat = None →
  let n := length (rules_of_backend_set id db) in
  (0 < n)%nat
  ∧ api.deleteBackendSet f param clientIP db
    = (api.JSON api.StatusInternalServerError (api.error_body (in_use "backend set" n)), db).
Proof.
  intros Hparam Hs Hin Hlive Href Hf0 Hf1 n. split.
  - subst n id. unfold rules_of_backend_set.
    pose proof (referring_rule_counted (λ x, (BackendSetID x =? BackendSetID r)%N)
                  r _ Hin Hlive) as Hn.
    simpl in Hn. exact (Hn (N.eqb_refl _)).
  - unfold api.deleteBackendSet. rewrite Hparam.
    destruct (DeleteBackendSet_in_use f id clientIP db s r Hs Hin Hlive Href)
      as (err & -> & Herr).
    by rewrite (Herr Hf0 Hf1).
Qed.

Lemma delete_of_referenced_backend_set_answers_500_witness :
  api.deleteBackendSet database.no_faults "1" "192.0.2.1" scenario.store
  = (api.JSON 500 (api.error_body "cannot delete backend set: it is used by 1 rules"),
     scenario.store).
Proof.
  assert (scenario.R ∈ database.rules scenario.store) as Hin.
  { left. }
  exact (proj2 (delete_of_referenced_backend_set_answers_500 database.no_faults
                  "1" "192.0.2.1" scenario.store 1 scenario.S scenario.R
                  eq_refl eq_refl Hin eq_refl eq_refl eq_refl eq_refl)).
Defined.

(** C3, as stated, fails on the scenario: rule R refers to backend set S,
    and DELETE /api/backend-sets/1 is answered with status 500, not 400. *)
Lemma delete_of_referenced_backend_set_is_not_400 :
  api.status (fst (api.deleteBackendSet database.no_faults "1" "192.0.2.1" scenario.store))
  = 500
  ∧ api.status (fst (api.deleteBackendSet database.no_faults "1" "192.0.2.1" scenario.store))
    ≠ api.StatusBadRequest.
Proof. split; [reflexivity | discriminate]. Qed.

End in_use.

(** ** The store: availability transitions *)
Section availability.
Import models props.

(** When the database answers the update of the address and fails the
    insert of the log row, LogAvailabilityChange returns the error with the
    update kept and no log row written. *)
Lemma LogAvailabilityChange_failed_log
    f addressID available checkError checkTime lastChecked db text db' :
  f 0%nat = None → f 1%nat = Some text →
  database.LogAvailabilityChange f addressID available checkError checkTime lastChecked db
  = (Some (database.driver_error text), db') →
  database.availability_logs db' = database.availability_logs db
  ∧ ∀ a, stored addressID (database.addresses db) = Some a →
         ∃ a', stored addressID (database.addresses db') = Some a'
               ∧ Available a' = available ∧ LastChecked a' = lastChecked.
Proof.
  unfold database.LogAvailabilityChange. intros -> ->. intros [= <-].
  split; [done|]. intros a. unfold stored. simpl.
  induction (database.addresses db) as [|x t IH]; simpl; [done|].
  destruct (database.live x && database.has_ID addressID x) eqn:Hx; simpl.
  - unfold database.live, database.has_ID in *. simpl in *. rewrite Hx. simpl. eauto.
  - rewrite Hx. exact IH.
Qed.

(** C5. In the scenario the probe of 10.0.0.10:80 fails and the database
    loses the connection after the first statement: LogAvailabilityChange
    returns the error, the address is stored as unavailable with its new
    lastChecked, and no AvailabilityLog row exists. *)
Theorem availability_update_kept_without_log :
  database.LogAvailabilityChange second_statement_fails 1 false
    "dial tcp 10.0.0.10:80: connect: connection refused" 1000 1001 scenario.store
  = (Some (database.driver_error "connection lost"),
     database.with_addresses
       [ {| Address_ID := 1; Address_Deleted := false; BackendID := 1;
            IP := "10.0.0.10"; Port := 80; Available := false; LastChecked := 1001 |};
         scenario.a2 ]
       scenario.store)
  ∧ database.availability_logs
      (snd (database.LogAvailabilityChange second_statement_fails 1 false
              "dial tcp 10.0.0.10:80: connect: connection refused" 1000 1001 scenario.store))
    = [].
Proof. split; reflexivity. Qed.

(** With a database that answers both statements the flag, lastChecked and
    the log row are written together. *)
Example availability_transition_logged :
  database.LogAvailabilityChange database.no_faults 1 false
    "dial tcp 10.0.0.10:80: connect: connection refused" 1000 1001 scenario.store
  = (None,
     database.with_availability_logs
       [ {| AvailabilityLog_ID := 1; AddressID := 1; AvailabilityLog_Available := false;
            CheckTime := 1000;
            CheckError := "dial tcp 10.0.0.10:80: connect: connection refused" |} ]
       (database.with_addresses
          [ {| Address_ID := 1; Address_Deleted := false; BackendID := 1;
               IP := "10.0.0.10"; Port := 80; Available := false; LastChecked := 1001 |};
            scenario.a2 ]
          scenario.store)).
Proof. reflexivity. Qed.

End availability.

(** ** Validation and lowering of source definitions *)
Section source_definitions.
Import models nftables props.




(** The other direction fails too: Validate rejects a reversed range that
    the lowering translates without error. *)
Example reversed_range_lowers :
  let sd := scenario.source 3 "reversed" "range" "" "" "10.0.0.5" "10.0.0.1" in
  Validate sd = false
  ∧ source_address_match sd
    = inr [ source_payload; Range CmpOpEq 1 [10; 0; 0; 5] [10; 0; 0; 1] ].
Proof. split; reflexivity. Qed.

End source_definitions.

(** ** The REST handlers *)
Section handlers.
Import models props.

Lemma elem_of_snoc {A} (x : A) (t : list A) : x ∈ t ++ [x].
Proof. apply elem_of_app. right. by apply list_elem_of_singleton. Qed.

Lemma CreateRule_persists f rule changedBy db rule' db' :
  database.CreateRule f rule changedBy db = (None, rule', db') →
  rule' ∈ database.rules db' ∧ DestinationPort rule' = DestinationPort rule.
Proof.
  unfold database.CreateRule, database.Create, database.Create_ConfigChange, database.Commit.
  intros Hcall. repeat case_match; simplify_eq; simpl; split; try done;
    apply elem_of_snoc.
Qed.

Lemma elem_of_replace_row {A} `{database.Row A} (x a : A) (t : list A) :
  a ∈ database.replace_row x t → a = x ∨ a ∈ t.
Proof.
  induction t as [|r t IH]; simpl; [by right|].
  destruct (database.has_ID (database.row_ID x) r).
  - intros [-> | Hin]%elem_of_cons; [by left | right; apply elem_of_cons; by right].
  - intros [-> | Hin]%elem_of_cons; [right; apply elem_of_cons; by left|].
    destruct (IH Hin) as [-> | Hin']; [by left | right; apply elem_of_cons; by right].
Qed.

Lemma replace_row_elem {A} `{database.Row A} (x : A) (t : list A) :
  existsb (database.has_ID (database.row_ID x)) t = true → x ∈ database.replace_row x t.
Proof.
  induction t as [|r t IH]; simpl; [done|].
  destruct (database.has_ID (database.row_ID x) r); simpl.
  - intros _. apply elem_of_cons. by left.
  - intros Hex. apply elem_of_cons. right. by apply IH.
Qed.

Lemma UpdateRule_persists f rule changedBy db rule' db' :
  database.UpdateRule f rule changedBy db = (None, rule', db') →
  rule' ∈ database.rules db' ∧ DestinationPort rule' = DestinationPort rule.
Proof.
  unfold database.UpdateRule, database.Save, database.Create,
    database.Create_ConfigChange, database.Commit.
  intros Hcall. repeat case_match; simplify_eq; simpl; split; try done;
    try apply elem_of_snoc.
  by apply replace_row_elem.
Qed.

Lemma byteOrder_uint16 (port : Z) :
  port_of (nftables.byteOrder (nftables.uint16 port)) = port mod 65536.
Proof.
  unfold nftables.byteOrder, nftables.uint16, port_of.
  pose proof (Z.mod_pos_bound port 65536 eq_refl) as Hrange.
  set (p := port mod 65536) in *.
  rewrite Z.shiftr_div_pow2 by lia. change (2 ^ 8) with 256.
  rewrite (Z.mod_small (p / 256) 256).
  - pose proof (Z.div_mod p 256). lia.
  - split; [apply Z.div_pos; lia | apply Z.div_lt_upper_bound; lia].
Qed.

(** C9, as far as the code goes: the handlers check the two references of
    a rule and nothing of its port. A POST /api/rules or PUT /api/rules/:id
    whose rule has nonzero source_definition_id and backend_set_id and that
    the store accepts is answered 201 (200 for PUT) and the rule is stored
    with the port of the request, whatever it is; the destination-port
    operand of a compiled rule is that port modulo 65536. *)
Theorem rule_port_is_stored_unchecked
    (f : database.Faults) (param : string) (id : N) (rule rule' : Rule)
    (clientIP : string) (db db' : database.DB) :
  SourceDefinitionID rule ≠ 0%N → BackendSetID rule ≠ 0%N →
  (database.CreateRule f rule clientIP db = (None, rule', db') →
     api.createRule f (inr rule) clientIP db
     = (api.JSON api.StatusCreated (api.Rule_body rule'), db')
     ∧ rule' ∈ database.rules db' ∧ DestinationPort rule' = DestinationPort rule)
  ∧ (api.ParseUint param = Some id →
     database.UpdateRule f (api.with_Rule_ID id rule) clientIP db = (None, rule', db') →
     api.updateRule f param (inr rule) clientIP db
     = (api.JSON api.StatusOK (api.Rule_body rule'), db')
     ∧ rule' ∈ database.rules db' ∧ DestinationPort rule' = DestinationPort rule)
  ∧ compiled_port rule = DestinationPort rule mod 65536
  ∧ 0 ≤ compiled_port rule < 65536.
Proof.
  intros Hsource Hset.
  apply N.eqb_neq in Hsource as Hsource', Hset as Hset'.
  split; [|split; [|split]].
  - intros Hcall. unfold api.createRule. rewrite Hsource', Hset', Hcall.
    split; [done|]. by eapply CreateRule_persists.
  - intros Hparam Hcall. unfold api.updateRule. rewrite Hparam. simpl.
    rewrite Hsource', Hset', Hcall. split; [done|].
    by apply UpdateRule_persists in Hcall.
  - apply byteOrder_uint16.
  - change (compiled_port rule)
      with (port_of (nftables.byteOrder (nftables.uint16 (DestinationPort rule)))).
    rewrite byteOrder_uint16. apply Z.mod_pos_bound. lia.
Qed.

Lemma rule_port_is_stored_unchecked_witness :
  ∃ rule' db',
    api.createRule database.no_faults (inr (scenario.rule 0 70000 "tcp" 10 true))
      "192.0.2.1" scenario.store
    = (api.JSON 201 (api.Rule_body rule'), db')
    ∧ rule' ∈ database.rules db' ∧ DestinationPort rule' = 70000.
Proof.
  eexists _, _.
  refine (proj1 (rule_port_is_stored_unchecked database.no_faults "2" 2
                   (scenario.rule 0 70000 "tcp" 10 true) _ "192.0.2.1" scenario.store _
                   _ _) eq_refl); discriminate.
Defined.

(** C9, as stated, fails: on the scenario a POST /api/rules with
    destination port 70000 is answered 201 and the rule is stored with that
    port; the rule compiled from it matches on port 4464. *)
Lemma rule_with_port_70000_is_accepted :
  let '(resp, db') :=
    api.createRule database.no_faults (inr (scenario.rule 0 70000 "tcp" 10 true))
      "192.0.2.1" scenario.store in
  api.status resp = 201
  ∧ api.status resp ≠ api.StatusBadRequest
  ∧ DestinationPort <$> database.rules db' = [80; 70000]
  ∧ compiled_port (scenario.rule 0 70000 "tcp" 10 true) = 4464.
Proof. vm_compute. repeat split; try reflexivity; discriminate. Qed.

Lemma stored_elem {A} `{database.Row A} (id : N) (t : list A) (x : A) :
  stored id t = Some x → x ∈ t ∧ database.row_ID x = id.
Proof.
  unfold stored. intros Hfind. apply find_some in Hfind as [Hin Hx].
  apply andb_prop in Hx as [_ Hid]. apply N.eqb_eq in Hid.
  split; [by apply list_elem_of_In | done].
Qed.

Lemma same_key_same_row {A} (key : A → N) (t : list A) (a b : A) :
  NoDup (key <$> t) → a ∈ t → b ∈ t → key a = key b → a = b.
Proof.
  induction t as [|r t IH]; simpl; [by intros _ ?%elem_of_nil|].
  intros [Hfresh Hnodup]%NoDup_cons [-> | Ha]%elem_of_cons [-> | Hb]%elem_of_cons Hkey.
  - done.
  - destruct Hfresh. rewrite Hkey. by apply list_elem_of_fmap_2.
  - destruct Hfresh. rewrite <- Hkey. by apply list_elem_of_fmap_2.
  - by apply IH.
Qed.

Lemma Create_rows {A} `{database.Row A} f k (x x' : A) (t t' : list A) :
  database.Create f k x t = inr (x', t') →
  t' = t ++ [x']
  ∧ (database.row_ID x ≠ 0%N → x' = x)
  ∧ (database.row_ID x = 0%N → x' = database.set_ID (database.fresh_ID t) x).
Proof.
  unfold database.Create. destruct (f k); [done|].
  destruct (N.eqb_spec (database.row_ID x) 0) as [Hzero | Hnonzero].
  - intros [= <- <-]. done.
  - destruct (existsb _ t); [done|]. intros [= <- <-]. done.
Qed.

Lemma Save_rows {A} `{database.Row A} f k (x x' : A) (t t' : list A) :
  database.Save f k x t = inr (x', t') →
  x' ∈ t'
  ∧ (database.row_ID x ≠ 0%N → x' = x)
  ∧ (database.row_ID x = 0%N → x' = database.set_ID (database.fresh_ID t) x)
  ∧ ∀ a, a ∈ t' → a = x' ∨ a ∈ t.
Proof.
  unfold database.Save.
  destruct (N.eqb_spec (database.row_ID x) 0) as [Hzero | Hnonzero].
  - intros (-> & Hsame & Hfresh)%Create_rows.
    split; [apply elem_of_snoc|]. split; [done|]. split; [done|].
    intros a [Ha | ->%list_elem_of_singleton]%elem_of_app; auto.
  - destruct (f k); [done|].
    destruct (existsb _ t) eqn:Hexists; intros [= <- <-].
    + split; [by apply replace_row_elem|]. split; [done|]. split; [done|].
      intros a Ha. by apply elem_of_replace_row in Ha.
    + split; [apply elem_of_snoc|]. split; [done|]. split; [done|].
      intros a [Ha | ->%list_elem_of_singleton]%elem_of_app; auto.
Qed.

Lemma UpdateAddress_rows f address changedBy db address' db' :
  database.UpdateAddress f address changedBy db = (None, address', db') →
  BackendID address' = BackendID address
  ∧ address' ∈ database.addresses db'
  ∧ (Address_ID address = 0%N → Address_ID address' ≠ 0%N)
  ∧ (Address_ID address ≠ 0%N → Address_ID address' = Address_ID address)
  ∧ ∀ a, a ∈ database.addresses db' → a = address' ∨ a ∈ database.addresses db.
Proof.
  unfold database.UpdateAddress.
  destruct (database.Save f 0 address (database.addresses db)) as [err | [x t]] eqn:Hsave;
    [done|].
  unfold database.Create_ConfigChange, database.Commit.
  destruct (f 1%nat); [done|]. destruct (f 2%nat); [done|]. intros [= <- <-]. simpl.
  apply Save_rows in Hsave as (Hin & Hsame & Hfresh & Hrows).
  split; [|split; [done|split; [|split; [|done]]]].
  - destruct (N.eq_dec (Address_ID address) 0%N) as [Hzero | Hnonzero].
    + by rewrite (Hfresh Hzero).
    + by rewrite (Hsame Hnonzero).
  - intros Hzero. rewrite (Hfresh Hzero). simpl. apply N.neq_succ_0.
  - intros Hnonzero. by rewrite (Hsame Hnonzero).
Qed.

(** C10. A PUT /api/addresses/:id answered with 200 leaves every stored
    address with this id on the backend it had before the request, and
    answers with an address of that backend, whatever backend_id the body
    names. The keys of the address table are taken to be unique, as the
    primary key of the table makes them. *)
Theorem address_update_keeps_backend
    (fg fu : database.Faults) (param : string) (bound : string + Address)
    (clientIP : string) (db db' : database.DB) (resp : api.response) :
  NoDup (Address_ID <$> database.addresses db) →
  api.updateAddress fg fu param bound clientIP db = (resp, db') →
  api.status resp = api.StatusOK →
  ∃ id old,
    api.ParseUint param = Some id
    ∧ stored id (database.addresses db) = Some old
    ∧ (∀ a, a ∈ database.addresses db' → Address_ID a = id → BackendID a = BackendID old)
    ∧ ∃ a', api.content resp = api.Address_body a'
            ∧ a' ∈ database.addresses db' ∧ BackendID a' = BackendID old.
Proof.
  intros Hkeys. unfold api.updateAddress, database.GetAddress, database.First.
  destruct (api.ParseUint param) as [id|]; [|by intros [= <- <-]].
  destruct (fg 0%nat); [by intros [= <- <-]|].
  fold (stored id (database.addresses db)).
  destruct (stored id (database.addresses db)) as [old|] eqn:Hold; [|by intros [= <- <-]].
  destruct bound as [text|address]; [by intros [= <- <-]|].
  destruct (net.is_nil _); [by intros [= <- <-]|].
  destruct (database.UpdateAddress _ _ _ _) as [[[err|] address'] db1] eqn:Hcall;
    intros [= <- <-]; [done|]. intros _.
  apply UpdateAddress_rows in Hcall as (Hbackend & Hin & _ & _ & Hrows).
  simpl in *. apply stored_elem in Hold as Hold'. destruct Hold' as [Hold_in Hold_id].
  exists id, old. split; [done|]. split; [done|]. split; [|eauto].
  intros a Ha Hid. destruct (Hrows a Ha) as [-> | Ha_old]; [done|].
  f_equal. apply (same_key_same_row Address_ID (database.addresses db)); try done.
  simpl in Hold_id. congruence.
Qed.

Lemma address_update_keeps_backend_witness :
  ∃ resp db',
    api.updateAddress database.no_faults database.no_faults "1"
      (inr (scenario.address 0 99 "10.0.0.12" 8080 true)) "192.0.2.1" scenario.store
    = (resp, db')
    ∧ api.status resp = 200
    ∧ ∀ a, a ∈ database.addresses db' → Address_ID a = 1%N → BackendID a = 1%N.
Proof.
  assert (NoDup (Address_ID <$> database.addresses scenario.store)) as Hkeys.
  { simpl. apply NoDup_cons.
    split; [by intros [=]%list_elem_of_singleton | apply NoDup_singleton]. }
  eexists _, _. split; [reflexivity|]. split; [reflexivity|].
  destruct (address_update_keeps_backend database.no_faults database.no_faults "1"
              (inr (scenario.address 0 99 "10.0.0.12" 8080 true)) "192.0.2.1"
              scenario.store _ _ Hkeys eq_refl eq_refl)
    as (id & old & Hid & Hold & Hrows & _).
  injection Hid as <-. injection Hold as <-. exact Hrows.
Defined.

End handlers.

(** ** The store: every mutation is logged in its transaction *)
Section audit_trail.
Import models props.



Lemma First_found {A} `{database.Row A} f k id (t : list A) (x : A) :
  database.First f k id t = inr x → f k = None ∧ database.row_ID x = id.
Proof.
  unfold database.First. destruct (f k); [done|].
  destruct (List.find _ t) as [r|] eqn:Hfind; [|done]. intros [= <-].
  split; [done|]. by apply (stored_elem id t r).
Qed.

Lemma Delete_gone {A} `{database.RowLaws A} f k id (t t' : list A) :
  database.Delete f k (database.has_ID id) t = inr t' →
  f k = None ∧ stored id t' = None.
Proof.
  unfold database.Delete. destruct (f k); [done|]. intros [= <-]. split; [done|].
  unfold stored. induction t as [|r t IH]; simpl; [done|].
  destruct (database.live r && database.has_ID id r) eqn:Hr.
  - unfold database.live at 1. by rewrite database.row_Deleted_set_Deleted.
  - by rewrite Hr.
Qed.







(** The delete of a backend takes its addresses and its memberships with
    it, all under the one ConfigChange row of the backend. *)
Example backend_delete_cascades :
  let '(e, db') := database.DeleteBackend database.no_faults 1 "192.0.2.1" scenario.store in
  e = None
  ∧ stored 1 (database.backends db') = None
  ∧ stored 1 (database.addresses db') = None
  ∧ database.backend_set_backends db' = [(1%N, 2%N)]
  ∧ (λ c, (ChangeType c, EntityType c, EntityID c)) <$> database.config_changes db'
    = [("delete", "backend", 1%N)].
Proof. vm_compute. repeat split. Qed.


End audit_trail.

(** * Further properties of the code *)

(** ** models.CompareIPs and nftables.byteOrder *)
Section order_and_bytes.
Import models nftables props.

Lemma CompareIPs_values (a b : net.IP) :
  CompareIPs a b = -1 ∨ CompareIPs a b = 0 ∨ CompareIPs a b = 1.
Proof.
  revert b. induction a as [|x a IH]; intros [|y b]; simpl; auto.
  destruct (x <? y); [auto|]. destruct (x >? y); auto.
Qed.

Lemma CompareIPs_swap (a b : net.IP) : CompareIPs a b = - CompareIPs b a.
Proof.
  revert b. induction a as [|x a IH]; intros [|y b]; simpl; try done.
  rewrite !Z.gtb_ltb.
  destruct (Z.ltb_spec x y), (Z.ltb_spec y x); try lia. apply IH.
Qed.

Lemma CompareIPs_equal (a b : net.IP) : CompareIPs a b = 0 ↔ a = b.
Proof.
  revert b. induction a as [|x a IH]; intros [|y b]; simpl; try done.
  rewrite Z.gtb_ltb.
  destruct (Z.ltb_spec x y); [split; [done | intros [= -> _]; lia]|].
  destruct (Z.ltb_spec y x); [split; [done | intros [= -> _]; lia]|].
  rewrite IH. split; [intros ->; f_equal; lia | by intros [= _ ->]].
Qed.

Lemma CompareIPs_transitive (a b c : net.IP) :
  CompareIPs a b ≤ 0 → CompareIPs b c ≤ 0 → CompareIPs a c ≤ 0.
Proof.
  revert b c. induction a as [|x a IH]; intros [|y b] [|z c]; simpl; try lia.
  rewrite !Z.gtb_ltb.
  destruct (Z.ltb_spec x y), (Z.ltb_spec y x), (Z.ltb_spec y z), (Z.ltb_spec z y),
    (Z.ltb_spec x z), (Z.ltb_spec z x); try lia.
  apply IH.
Qed.

(** X1. CompareIPs is a three-way comparison for a total order on byte
    sequences: it returns -1, 0 or 1, returns 0 exactly on equal
    sequences, changes sign when its arguments are swapped, and "at most"
    is transitive. A proper prefix sorts before the longer sequence. *)
Theorem CompareIPs_is_a_total_order (a b c : net.IP) :
  (CompareIPs a b = -1 ∨ CompareIPs a b = 0 ∨ CompareIPs a b = 1)
  ∧ (CompareIPs a b = 0 ↔ a = b)
  ∧ CompareIPs a b = - CompareIPs b a
  ∧ (CompareIPs a b ≤ 0 → CompareIPs b c ≤ 0 → CompareIPs a c ≤ 0)
  ∧ (c ≠ [] → CompareIPs a (a ++ c) = -1).
Proof.
  split; [apply CompareIPs_values|]. split; [apply CompareIPs_equal|].
  split; [apply CompareIPs_swap|]. split; [apply CompareIPs_transitive|].
  intros Hc. induction a as [|x a IH]; simpl.
  - by destruct c.
  - rewrite Z.gtb_ltb, Z.ltb_irrefl. exact IH.
Qed.

Lemma CompareIPs_is_a_total_order_witness :
  CompareIPs [10; 0; 0; 1] [10; 0; 0; 5] ≤ 0
  ∧ CompareIPs [10; 0; 0; 5] [10; 0; 1; 0] ≤ 0
  ∧ CompareIPs [10; 0; 0; 1] [10; 0; 1; 0] ≤ 0.
Proof.
  assert (CompareIPs [10; 0; 0; 1] [10; 0; 0; 5] ≤ 0) as H1 by (vm_compute; discriminate).
  assert (CompareIPs [10; 0; 0; 5] [10; 0; 1; 0] ≤ 0) as H2 by (vm_compute; discriminate).
  split; [exact H1|]. split; [exact H2|].
  exact (proj1 (proj2 (proj2 (proj2
           (CompareIPs_is_a_total_order [10; 0; 0; 1] [10; 0; 0; 5] [10; 0; 1; 0]))))
           H1 H2).
Defined.

(** X2. byteOrder writes a 16-bit port as two bytes, high byte first, and
    the port is read back from them unchanged. *)
Theorem byteOrder_round_trip (port : Z) :
  0 ≤ port < 65536 →
  ∃ hi lo, byteOrder port = [hi; lo]
           ∧ 0 ≤ hi < 256 ∧ 0 ≤ lo < 256 ∧ hi * 256 + lo = port.
Proof.
  intros Hport. unfold byteOrder. eexists _, _. split; [reflexivity|].
  rewrite Z.shiftr_div_pow2 by lia. change (2 ^ 8) with 256.
  pose proof (Z.mod_pos_bound (port / 256) 256 eq_refl).
  pose proof (Z.mod_pos_bound port 256 eq_refl).
  split; [done|]. split; [done|].
  rewrite (Z.mod_small (port / 256) 256).
  - pose proof (Z.div_mod port 256). lia.
  - split; [apply Z.div_pos; lia | apply Z.div_lt_upper_bound; lia].
Qed.

Lemma byteOrder_round_trip_witness :
  ∃ hi lo, byteOrder 8080 = [hi; lo]
           ∧ 0 ≤ hi < 256 ∧ 0 ≤ lo < 256 ∧ hi * 256 + lo = 8080.
Proof. apply byteOrder_round_trip. lia. Defined.

End order_and_bytes.

(** ** nftables.generateExpressionsForRule and the loop of ApplyRules *)
Section compiled_rules.
Import models nftables props.

Lemma nth_elem_of {A} (l : list A) (k : nat) (d : A) : (k < length l)%nat → nth k l d ∈ l.
Proof. intros Hk. apply list_elem_of_In. by apply nth_In. Qed.

Lemma generateExpressionsForRule_success
    (rng rng' : Rand) (rule : Rule) (addresses : list Address) (es : list Any) :
  generateExpressionsForRule rng rule addresses = (Exprs es, rng') →
  compiled_from rule addresses es ∧ position rng' = S (position rng).
Proof.
  unfold generateExpressionsForRule, compiled_from.
  destruct (String.eqb_spec (Protocol rule) "tcp") as [Htcp|_];
    [|destruct (String.eqb_spec (Protocol rule) "udp") as [Hudp|_]; [|done]].
  all: destruct (source_address_match _) as [err|src] eqn:Hsrc; [done|].
  all: destruct addresses as [|first others]; [done|].
  all: set (l := first :: others); simpl.
  all: destruct (net.is_nil _) eqn:Hnil; [done|]; intros [= <- <-]; split; [|done].
  all: eexists _, src, (nth (draws rng (position rng) mod length l) l first).
  all: split; [eauto|]; split; [done|]; split;
    [apply nth_elem_of, Nat.mod_upper_bound; subst l; simpl; lia|].
  all: split; [|reflexivity].
  all: intros Hzero; subst l; simpl in *; by rewrite Hzero in Hnil.
Qed.

(** X3. When generateExpressionsForRule succeeds, the protocol of the
    rule is tcp or udp, and the expressions are the protocol match, the
    destination-port match, the source match and a DNAT whose target is
    one of the addresses passed in, with an IPv4 literal; the call took
    exactly one draw from the random source. *)
Theorem generated_expressions_target_a_listed_address
    (rng rng' : Rand) (rule : Rule) (addresses : list Address) (es : list Any) :
  generateExpressionsForRule rng rule addresses = (Exprs es, rng') →
  compiled_from rule addresses es ∧ position rng' = S (position rng).
Proof. apply generateExpressionsForRule_success. Qed.

Lemma generated_expressions_target_a_listed_address_witness :
  ∃ es, compiled_from (scenario.loaded scenario.R) [scenario.a1; scenario.a2] es.
Proof.
  eexists.
  exact (proj1 (generated_expressions_target_a_listed_address scenario.rng0 _
                  (scenario.loaded scenario.R) [scenario.a1; scenario.a2] _ eq_refl)).
Defined.

(** X4. The loop of ApplyRules accounts for every rule of its input: a
    rule is either queued as a kernel rule or named in a warning or error
    entry of the log, never both and never neither. *)
Theorem every_rule_is_compiled_or_logged
    (rng : Rand) (rules : list Rule) (addresses : gmap N (list Address)) :
  (length (added (compile rng rules addresses))
   + length (log (compile rng rules addresses)) = length rules)%nat.
Proof.
  revert rng. induction rules as [|rule rest IH]; intros rng; simpl; [done|].
  destruct (default [] (addresses !! BackendSetID rule)) as [|first others] eqn:Hlist;
    simpl; [rewrite <- (IH rng); lia|].
  destruct (generateExpressionsForRule rng rule (first :: others))
    as [[es | err | ] rng'] eqn:Hgen; simpl.
  - rewrite <- (IH rng'). lia.
  - rewrite <- (IH rng'). lia.
  - exfalso. unfold generateExpressionsForRule in Hgen.
    destruct (Protocol rule =? "tcp")%string;
      [|destruct (Protocol rule =? "udp")%string; [|done]];
      destruct (source_address_match _); try done; simpl in Hgen;
      by destruct (net.is_nil _).
Qed.

Lemma queued_rule_origin
    (rng : Rand) (rules : list Rule) (addresses : gmap N (list Address)) (kr : Rule_) :
  kr ∈ added (compile rng rules addresses) →
  ∃ rule l, rule ∈ rules
            ∧ UserData kr = rule_tag rule
            ∧ addresses !! BackendSetID rule = Some l
            ∧ compiled_from rule l (Exprs_ kr).
Proof.
  revert rng. induction rules as [|rule rest IH]; intros rng; simpl;
    [by intros ?%elem_of_nil|].
  destruct (addresses !! BackendSetID rule) as [l|] eqn:Hl; simpl.
  2: { intros (r & l' & Hin & ?)%IH. exists r, l'. split; [by right | done]. }
  destruct (net.is_nil l) eqn:Hnil; simpl.
  { intros (r & l' & Hin & ?)%IH. exists r, l'. split; [by right | done]. }
  destruct (generateExpressionsForRule rng rule l) as [[es | err | ] rng'] eqn:Hgen; simpl.
  - intros [-> | Hin]%elem_of_cons.
    + exists rule, l. split; [by left|]. split; [done|]. split; [done|].
      by apply generateExpressionsForRule_success in Hgen as [? _].
    + apply IH in Hin as (r & l' & Hin & ?). exists r, l'. split; [by right | done].
  - intros (r & l' & Hin & ?)%IH. exists r, l'. split; [by right | done].
  - by intros ?%elem_of_nil.
Qed.

(** X5. Every kernel rule the loop of ApplyRules queues belongs to a rule
    of the input: it carries the tag of that rule, the availability map
    has an address list for the rule's backend set, and its expressions
    are a full compilation of the rule with the DNAT target taken from
    that list. *)
Theorem queued_rule_comes_from_an_input_rule
    (rng : Rand) (rules : list Rule) (addresses : gmap N (list Address)) (kr : Rule_) :
  kr ∈ added (compile rng rules addresses) →
  ∃ rule l, rule ∈ rules
            ∧ UserData kr = rule_tag rule
            ∧ addresses !! BackendSetID rule = Some l
            ∧ compiled_from rule l (Exprs_ kr).
Proof. apply queued_rule_origin. Qed.

Lemma queued_rule_comes_from_an_input_rule_witness :
  ∃ kr rule l,
    kr ∈ added (compile scenario.rng0 [scenario.loaded scenario.R] scenario.available)
    ∧ rule ∈ [scenario.loaded scenario.R]
    ∧ UserData kr = "rule_id:1"
    ∧ scenario.available !! BackendSetID rule = Some l.
Proof.
  assert (∃ kr, kr ∈ added (compile scenario.rng0 [scenario.loaded scenario.R]
                              scenario.available)) as [kr Hkr].
  { eexists. left. }
  destruct (queued_rule_comes_from_an_input_rule _ _ _ kr Hkr)
    as (rule & l & Hin & Htag & Hl & _).
  exists kr, rule, l. split; [done|]. split; [done|]. split; [|done].
  apply list_elem_of_singleton in Hin. subst rule. exact Htag.
Defined.

End compiled_rules.

(** ** database: the available addresses of a backend set *)
Section available_addresses.
Import models props.

Lemma available_address_elem f backendSetID db l (a : Address) :
  database.GetAvailableBackendAddresses f backendSetID db = (None, l) →
  a ∈ l ↔
    a ∈ database.addresses db ∧ Available a = true
    ∧ (∃ b, b ∈ database.backends db ∧ Backend_ID b = BackendID a)
    ∧ (backendSetID, BackendID a) ∈ database.backend_set_backends db.
Proof.
  unfold database.GetAvailableBackendAddresses. destruct (f 0%nat); [done|].
  intros [= <-]. rewrite list_elem_of_In, in_flat_map. split.
  - intros (x & Hx & Hin). apply in_flat_map in Hin as (b & Hb & Hin).
    apply in_flat_map in Hin as ([s' b'] & Hlink & Hin).
    apply filter_In in Hb as [Hb Hkey]. apply N.eqb_eq in Hkey.
    simpl in Hin.
    destruct (N.eqb_spec (Backend_ID b) b') as [Hb'|]; [|by destruct Hin].
    destruct (N.eqb_spec s' backendSetID) as [Hs'|]; [|by destruct Hin].
    destruct (Available x) eqn:Hav; [|by destruct Hin].
    destruct Hin as [<- | []].
    split; [by apply list_elem_of_In|]. split; [done|].
    split; [exists b; split; [by apply list_elem_of_In | done]|].
    apply list_elem_of_In. congruence.
  - intros (Ha & Hav & (b & Hb & Hkey) & Hlink).
    exists a. split; [by apply list_elem_of_In|].
    apply in_flat_map. exists b. split.
    { apply filter_In. split; [by apply list_elem_of_In|]. by apply N.eqb_eq. }
    apply in_flat_map. exists (backendSetID, BackendID a).
    split; [by apply list_elem_of_In|]. simpl.
    rewrite Hkey, !N.eqb_refl, Hav. by left.
Qed.

(** X6. GetAvailableBackendAddresses returns exactly the rows of the
    address table that are flagged available and whose backend has a row
    and is a member of the backend set; nothing else, and none of these is
    left out. *)
Theorem available_addresses_are_the_available_members
    (f : database.Faults) (backendSetID : N) (db : database.DB)
    (l : list Address) (a : Address) :
  database.GetAvailableBackendAddresses f backendSetID db = (None, l) →
  a ∈ l ↔
    a ∈ database.addresses db ∧ Available a = true
    ∧ (∃ b, b ∈ database.backends db ∧ Backend_ID b = BackendID a)
    ∧ (backendSetID, BackendID a) ∈ database.backend_set_backends db.
Proof. apply available_address_elem. Qed.

Lemma available_addresses_are_the_available_members_witness :
  scenario.a1 ∈ snd (database.GetAvailableBackendAddresses database.no_faults 1 scenario.store).
Proof.
  apply (available_addresses_are_the_available_members database.no_faults 1
           scenario.store _ scenario.a1 eq_refl).
  split; [by left|]. split; [done|]. split; [exists scenario.b1; split; [by left | done]|].
  by left.
Defined.

(** The rows DeleteAddress leaves in the address table. *)
Lemma DeleteAddress_rows f id changedBy db db' :
  database.DeleteAddress f id changedBy db = (None, db') →
  database.addresses db'
  = (λ a, if database.live a && database.has_ID id a
          then database.set_Deleted true a else a) <$> database.addresses db
  ∧ database.backends db' = database.backends db
  ∧ database.backend_set_backends db' = database.backend_set_backends db.
Proof.
  unfold database.DeleteAddress.
  destruct (database.First f 0 id _) as [?|address] eqn:Hfirst; [done|].
  apply First_found in Hfirst as [_ Hid]. simpl in Hid. subst id.
  unfold database.Delete, database.Create_ConfigChange, database.Commit.
  destruct (f 1%nat); [done|]. destruct (f 2%nat); [done|]. destruct (f 3%nat); [done|].
  by intros [= <-].
Qed.

(** X7. DeleteAddress only marks the row as deleted, and the query of
    GetAvailableBackendAddresses does not look at that mark: an available
    address that the query returned before a successful DeleteAddress is
    still returned after it, now as a deleted row. *)
Theorem deleted_address_is_still_served
    (f : database.Faults) (id backendSetID : N) (changedBy : string)
    (db db' : database.DB) (a : Address) :
  database.DeleteAddress f id changedBy db = (None, db') →
  a ∈ snd (database.GetAvailableBackendAddresses database.no_faults backendSetID db) →
  Address_ID a = id →
  ∃ a', a' ∈ snd (database.GetAvailableBackendAddresses database.no_faults backendSetID db')
        ∧ Address_ID a' = id ∧ Address_Deleted a' = true
        ∧ IP a' = IP a ∧ Port a' = Port a ∧ BackendID a' = BackendID a.
Proof.
  intros (Hrows & Hbackends & Hlinks)%DeleteAddress_rows Ha Hid.
  apply (available_address_elem database.no_faults backendSetID db _ a eq_refl) in Ha
    as (Hin & Hav & Hb & Hlink).
  set (g := λ a : Address, if database.live a && database.has_ID id a
                           then database.set_Deleted true a else a) in Hrows.
  assert (Address_ID (g a) = id ∧ Address_Deleted (g a) = true ∧ IP (g a) = IP a
          ∧ Port (g a) = Port a ∧ BackendID (g a) = BackendID a
          ∧ Available (g a) = Available a) as (? & ? & ? & ? & Hbid & Hav').
  { unfold g, database.live, database.has_ID. simpl. rewrite Hid, N.eqb_refl.
    destruct (Address_Deleted a) eqn:Hdel; simpl; by rewrite ?Hdel. }
  exists (g a). split; [|done].
  apply (available_address_elem database.no_faults backendSetID db' _ (g a) eq_refl).
  rewrite Hrows, Hbackends, Hlinks, Hbid, Hav'.
  split; [by apply list_elem_of_fmap_2|]. done.
Qed.

Lemma deleted_address_is_still_served_witness :
  ∃ db' a',
    database.DeleteAddress database.no_faults 1 "192.0.2.1" scenario.store = (None, db')
    ∧ a' ∈ snd (database.GetAvailableBackendAddresses database.no_faults 1 db')
    ∧ Address_ID a' = 1%N ∧ Address_Deleted a' = true.
Proof.
  eexists.
  assert (scenario.a1 ∈ snd (database.GetAvailableBackendAddresses database.no_faults 1
                                 scenario.store)) as Hserved.
  { left. }
  destruct (deleted_address_is_still_served database.no_faults 1 1 "192.0.2.1"
              scenario.store _ scenario.a1 eq_refl Hserved eq_refl)
    as (a' & Hin & Hid & Hdel & _).
  exists a'. split; [reflexivity|]. done.
Defined.

End available_addresses.

(** ** database: deletes *)
Section deletes.
Import models props.

Lemma Delete_rows {A} `{database.Row A} f k (cond : A → bool) (t t' : list A) :
  database.Delete f k cond t = inr t' →
  t' = (λ r, if database.live r && cond r then database.set_Deleted true r else r) <$> t.
Proof. unfold database.Delete. destruct (f k); [done|]. by intros [= <-]. Qed.

(** What a successful DeleteBackend leaves in the three tables it
    touches. *)
Lemma DeleteBackend_rows f id changedBy db db' :
  database.DeleteBackend f id changedBy db = (None, db') →
  stored id (database.backends db') = None
  ∧ database.addresses db'
    = (λ a, if database.live a && (BackendID a =? id)%N
            then database.set_Deleted true a else a) <$> database.addresses db
  ∧ database.backend_set_backends db'
    = List.filter (λ p, negb (snd p =? id)%N) (database.backend_set_backends db).
Proof.
  unfold database.DeleteBackend.
  destruct (database.First f 0 id _) as [?|backend] eqn:Hfirst; [done|].
  apply First_found in Hfirst as [_ Hid]. simpl in Hid. subst id.
  destruct (f 1%nat); [done|].
  destruct (database.Delete f 2 _ _) as [?|t2] eqn:Haddresses; [done|].
  destruct (database.Delete f 3 _ _) as [?|t3] eqn:Hbackends; [done|].
  apply Delete_rows in Haddresses. apply Delete_gone in Hbackends as [_ Hgone].
  unfold database.Create_ConfigChange, database.Commit.
  destruct (f 4%nat); [done|]. destruct (f 5%nat); [done|].
  intros [= <-]. simpl in *. done.
Qed.

(** X8. A successful DeleteBackend takes everything of the backend with
    it: the backend has no live row, every address of the backend is
    marked deleted, no backend set has the backend as a member, and
    GetAvailableBackendAddresses returns none of its addresses for any
    backend set. *)
Theorem deleted_backend_leaves_nothing_behind
    (f : database.Faults) (id : N) (changedBy : string) (db db' : database.DB) :
  database.DeleteBackend f id changedBy db = (None, db') →
  stored id (database.backends db') = None
  ∧ (∀ a, a ∈ database.addresses db' → BackendID a = id → Address_Deleted a = true)
  ∧ (∀ p, p ∈ database.backend_set_backends db' → snd p ≠ id)
  ∧ (∀ backendSetID a,
       a ∈ snd (database.GetAvailableBackendAddresses database.no_faults backendSetID db') →
       BackendID a ≠ id).
Proof.
  intros (Hgone & Hrows & Hlinks)%DeleteBackend_rows.
  assert (∀ p, p ∈ database.backend_set_backends db' → snd p ≠ id) as Hmembers.
  { intros p Hp. rewrite Hlinks in Hp. apply list_elem_of_In, filter_In in Hp as [_ Hp].
    apply negb_true_iff in Hp. by apply N.eqb_neq. }
  split; [done|]. split; [|split; [done|]].
  - intros a Ha Hid. rewrite Hrows in Ha.
    apply list_elem_of_fmap in Ha as (x & -> & _).
    unfold database.live in *. simpl in *.
    destruct (Address_Deleted x) eqn:Hdel; simpl in *; [done|].
    destruct (BackendID x =? id)%N eqn:Hx; simpl in *; [done|].
    apply N.eqb_neq in Hx. done.
  - intros backendSetID a Ha Hid.
    apply (available_address_elem database.no_faults backendSetID db' _ a eq_refl) in Ha
      as (_ & _ & _ & Hlink).
    by apply (Hmembers _ Hlink).
Qed.

Lemma deleted_backend_leaves_nothing_behind_witness :
  ∃ db',
    database.DeleteBackend database.no_faults 1 "192.0.2.1" scenario.store = (None, db')
    ∧ stored 1 (database.backends db') = None
    ∧ ∀ p, p ∈ database.backend_set_backends db' → snd p ≠ 1%N.
Proof.
  eexists. split; [reflexivity|].
  destruct (deleted_backend_leaves_nothing_behind database.no_faults 1 "192.0.2.1"
              scenario.store _ eq_refl) as (Hgone & _ & Hmembers & _).
  split; [exact Hgone | exact Hmembers].
Defined.

Lemma count_zero_no_rows (cond : Rule → bool) f k (t : list Rule) count :
  database.Count f k cond t = inr count → (0 <? count) = false →
  List.filter (λ r, database.live r && cond r) t = [].
Proof.
  unfold database.Count. destruct (f k); [done|]. intros [= <-] Hzero.
  apply Z.ltb_ge in Hzero. destruct (List.filter _ t); [done | simpl in Hzero; lia].
Qed.

(** X9. A successful DeleteBackendSet or DeleteSourceDefinition never
    leaves a rule pointing at the deleted row: no live rule refers to the
    id, the rules are untouched, the entity has no live row, and a deleted
    backend set has no members left. *)
Theorem successful_delete_leaves_no_reference
    (f : database.Faults) (id : N) (changedBy : string) (db db' : database.DB) :
  (database.DeleteBackendSet f id changedBy db = (None, db') →
     rules_of_backend_set id db' = []
     ∧ database.rules db' = database.rules db
     ∧ stored id (database.backend_sets db') = None
     ∧ ∀ p, p ∈ database.backend_set_backends db' → fst p ≠ id)
  ∧ (database.DeleteSourceDefinition f id changedBy db = (None, db') →
     rules_of_source_definition id db' = []
     ∧ database.rules db' = database.rules db
     ∧ stored id (database.source_definitions db') = None).
Proof.
  split.
  - unfold database.DeleteBackendSet.
    destruct (database.First f 0 id _) as [?|backendSet] eqn:Hfirst; [done|].
    apply First_found in Hfirst as [_ Hid]. simpl in Hid. subst id.
    destruct (database.Count f 1 _ _) as [?|count] eqn:Hcount; [done|].
    destruct (0 <? count) eqn:Hzero; [done|].
    apply (count_zero_no_rows _ _ _ _ _ Hcount) in Hzero.
    destruct (f 2%nat); [done|].
    destruct (database.Delete f 3 _ _) as [?|t3] eqn:Hdelete; [done|].
    apply Delete_gone in Hdelete as [_ Hgone].
    unfold database.Create_ConfigChange, database.Commit.
    destruct (f 4%nat); [done|]. destruct (f 5%nat); [done|].
    intros [= <-]. unfold rules_of_backend_set. simpl.
    split; [done|]. split; [done|]. split; [done|].
    intros p Hp. apply list_elem_of_In, filter_In in Hp as [_ Hp].
    apply negb_true_iff in Hp. by apply N.eqb_neq.
  - unfold database.DeleteSourceDefinition.
    destruct (database.First f 0 id _) as [?|sourceDefinition] eqn:Hfirst; [done|].
    apply First_found in Hfirst as [_ Hid]. simpl in Hid. subst id.
    destruct (database.Count f 1 _ _) as [?|count] eqn:Hcount; [done|].
    destruct (0 <? count) eqn:Hzero; [done|].
    apply (count_zero_no_rows _ _ _ _ _ Hcount) in Hzero.
    destruct (database.Delete f 2 _ _) as [?|t2] eqn:Hdelete; [done|].
    apply Delete_gone in Hdelete as [_ Hgone].
    unfold database.Create_ConfigChange, database.Commit.
    destruct (f 3%nat); [done|]. destruct (f 4%nat); [done|].
    intros [= <-]. unfold rules_of_source_definition. simpl. done.
Qed.

Lemma successful_delete_leaves_no_reference_witness :
  ∃ db',
    database.DeleteBackendSet database.no_faults 1 "192.0.2.1"
      (database.with_rules [] scenario.store) = (None, db')
    ∧ stored 1 (database.backend_sets db') = None
    ∧ database.backend_set_backends db' = [].
Proof.
  eexists. split; [reflexivity|].
  destruct (proj1 (successful_delete_leaves_no_reference database.no_faults 1 "192.0.2.1"
                     (database.with_rules [] scenario.store) _) eq_refl)
    as (_ & _ & Hgone & _).
  split; [exact Hgone | reflexivity].
Defined.

End deletes.

(** ** database: availability transitions and the health checker *)
Section transitions.
Import models props.

Lemma stored_fmap_update (id id' : N) (g : Address → Address) (t : list Address) :
  (∀ a, Address_ID (g a) = Address_ID a ∧ Address_Deleted (g a) = Address_Deleted a) →
  stored id'
    ((λ a, if database.live a && database.has_ID id a then g a else a) <$> t)
  = (λ a, if (id' =? id)%N then g a else a) <$> stored id' t.
Proof.
  intros Hg. unfold stored. induction t as [|x t IH]; simpl; [done|].
  unfold database.live, database.has_ID in *. simpl in *.
  destruct (negb (Address_Deleted x) && (Address_ID x =? id)%N) eqn:Hx.
  - destruct (Hg x) as [-> ->].
    apply andb_prop in Hx as [Hlive Hid]. rewrite Hlive. simpl.
    apply N.eqb_eq in Hid. subst id.
    destruct (N.eqb_spec (Address_ID x) id') as [->|Hne]; simpl.
    + by rewrite N.eqb_refl.
    + exact IH.
  - destruct (negb (Address_Deleted x) && (Address_ID x =? id')%N) eqn:Hx'; simpl; [|exact IH].
    apply andb_prop in Hx' as [Hlive Hid']. rewrite Hlive in Hx. simpl in Hx.
    apply N.eqb_eq in Hid'. subst id'. by rewrite Hx.
Qed.



(** The probe of an address whose outcome is the flag the tick read
    writes nothing. *)
Lemma probe_without_transition dial f checkTime lastChecked (address : Address) db :
  fst (health.checkAddress dial (IP address) (Port address)) = Available address →
  health.probe dial f checkTime lastChecked address db = db.
Proof.
  unfold health.probe. destruct (health.checkAddress _ _ _) as [available err]. simpl.
  intros ->. by rewrite Bool.eqb_reflx.
Qed.

(** X11. A health tick in which every probe finds its address as the
    store has it flagged writes nothing: the store after checkAllBackends
    is the store before it, whatever the order of the probes, the clock
    and the behaviour of the database. *)
Theorem tick_without_transition_writes_nothing
    (dial : health.Dial) (fg : database.Faults) (fs : nat → database.Faults)
    (clock : nat → Z * Z) (order : list Address → list Address) (db : database.DB) :
  (∀ backends a,
     database.GetAllBackends fg db = (None, backends) →
     a ∈ order (health.snapshot backends) →
     fst (health.checkAddress dial (IP a) (Port a)) = Available a) →
  snd (health.checkAllBackends dial fg fs clock order db) = db.
Proof.
  intros Hsame. unfold health.checkAllBackends.
  destruct (database.GetAllBackends fg db) as [[err|] backends] eqn:Hget; [done|]. simpl.
  specialize (Hsame backends). generalize 0%nat.
  induction (order (health.snapshot backends)) as [|a schedule IH]; intros i; simpl; [done|].
  rewrite probe_without_transition.
  - apply IH. intros a' Hget' Ha'. apply Hsame; [done | by right].
  - apply Hsame; [done | by left].
Qed.

Lemma tick_without_transition_writes_nothing_witness :
  snd (health.checkAllBackends all_up database.no_faults (λ _, database.no_faults)
         (λ _, (1000, 1001)) (λ l, l) scenario.store) = scenario.store.
Proof.
  apply tick_without_transition_writes_nothing.
  intros backends a [= <-] Ha. simpl in Ha.
  apply elem_of_cons in Ha as [-> | Ha]; [reflexivity|].
  apply list_elem_of_singleton in Ha as ->. reflexivity.
Defined.

Lemma probe_stored dial f checkTime lastChecked (address : Address) db id :
  f 0%nat = None →
  ∃ a'', ∀ x,
    stored id (database.addresses db) = Some x →
    stored id (database.addresses (health.probe dial f checkTime lastChecked address db))
    = Some (if (id =? Address_ID address)%N then a'' x else x)
    ∧ Address_ID (a'' x) = Address_ID x ∧ Address_Deleted (a'' x) = Address_Deleted x
    ∧ IP (a'' x) = IP x ∧ Port (a'' x) = Port x ∧ BackendID (a'' x) = BackendID x
    ∧ (Available x = Available address →
       Available (a'' x) = fst (health.checkAddress dial (IP address) (Port address))).
Proof.
  intros Hf0. unfold health.probe.
  destruct (health.checkAddress dial (IP address) (Port address)) as [available err]. simpl.
  destruct (Bool.eqb available (Available address)) eqn:Hsame; simpl.
  - apply Bool.eqb_prop in Hsame. exists (λ x, x). intros x Hx.
    split; [by destruct (id =? Address_ID address)%N|]. repeat split. congruence.
  - exists (flagged available lastChecked). intros x Hx.
    unfold database.LogAvailabilityChange. rewrite Hf0.
    assert (stored id
              (database.addresses
                 (database.with_addresses
                    ((λ a, if database.live a && database.has_ID (Address_ID address) a
                           then flagged available lastChecked a else a)
                       <$> database.addresses db) db))
            = Some (if (id =? Address_ID address)%N
                    then flagged available lastChecked x else x)) as Hupdated.
    { simpl. rewrite (stored_fmap_update (Address_ID address) id) by done.
      by rewrite Hx. }
    split; [|done].
    destruct (f 1%nat); simpl; exact Hupdated.
Qed.

Lemma probe_frame dial f checkTime lastChecked (address : Address) db id :
  id ≠ Address_ID address →
  stored id (database.addresses (health.probe dial f checkTime lastChecked address db))
  = stored id (database.addresses db).
Proof.
  intros Hne. unfold health.probe.
  destruct (health.checkAddress _ _ _) as [available err].
  destruct (negb _); [|done].
  unfold database.LogAvailabilityChange. destruct (f 0%nat); [done|].
  assert (stored id
            (database.addresses
               (database.with_addresses
                  ((λ a, if database.live a && database.has_ID (Address_ID address) a
                         then flagged available lastChecked a else a)
                     <$> database.addresses db) db))
          = stored id (database.addresses db)) as Hsame.
  { simpl. rewrite (stored_fmap_update (Address_ID address) id) by done.
    apply N.eqb_neq in Hne. rewrite Hne. by destruct (stored id _). }
  destruct (f 1%nat); simpl; exact Hsame.
Qed.

Lemma probes_frame dial fs clock i (schedule : list Address) db id :
  id ∉ Address_ID <$> schedule →
  stored id (database.addresses (health.probes dial fs clock i schedule db))
  = stored id (database.addresses db).
Proof.
  revert i db. induction schedule as [|a rest IH]; intros i db Hid; simpl; [done|].
  apply not_elem_of_cons in Hid as [Hne Hid].
  rewrite IH by done. by apply probe_frame.
Qed.

Lemma probes_converge dial fs clock i (schedule : list Address) db :
  (∀ k, fs k 0%nat = None) →
  NoDup (Address_ID <$> schedule) →
  (∀ a, a ∈ schedule → stored (Address_ID a) (database.addresses db) = Some a) →
  ∀ a, a ∈ schedule →
    ∃ a', stored (Address_ID a)
            (database.addresses (health.probes dial fs clock i schedule db)) = Some a'
          ∧ Available a' = fst (health.checkAddress dial (IP a) (Port a))
          ∧ IP a' = IP a ∧ Port a' = Port a ∧ BackendID a' = BackendID a.
Proof.
  intros Hfaults. revert i db.
  induction schedule as [|x rest IH]; intros i db Hkeys Hsnapshot a Ha;
    [by apply elem_of_nil in Ha|].
  simpl in Hkeys. apply NoDup_cons in Hkeys as [Hfresh Hkeys]. simpl.
  apply elem_of_cons in Ha as [-> | Ha].
  - rewrite probes_frame by done.
    destruct (probe_stored dial (fs i) (fst (clock i)) (snd (clock i)) x db
                (Address_ID x) (Hfaults i)) as (g & Hg).
    destruct (Hg x) as (Hstored & _ & _ & ? & ? & ? & Hflag).
    { apply Hsnapshot. by left. }
    rewrite N.eqb_refl in Hstored. exists (g x). split; [done|]. split; [by apply Hflag | done].
  - apply IH; [done| |done].
    intros b Hb. rewrite probe_frame.
    + apply Hsnapshot. by right.
    + intros Heq. apply Hfresh. rewrite <- Heq. by apply list_elem_of_fmap_2.
Qed.

Lemma stored_of_elem {A} `{database.Row A} (t : list A) (a : A) :
  NoDup (database.row_ID <$> t) → a ∈ t → database.row_Deleted a = false →
  stored (database.row_ID a) t = Some a.
Proof.
  intros Hkeys Ha Hlive. unfold stored.
  destruct (List.find _ t) as [x|] eqn:Hfind.
  - apply find_some in Hfind as [Hx Hkey]. apply andb_prop in Hkey as [_ Hkey].
    apply N.eqb_eq in Hkey. f_equal.
    apply (same_key_same_row database.row_ID t); [done | by apply list_elem_of_In | done..].
  - apply list_elem_of_In in Ha. apply (find_none _ _ Hfind) in Ha.
    unfold database.live, database.has_ID in Ha. by rewrite Hlive, N.eqb_refl in Ha.
Qed.

Lemma snapshot_elem db (a : Address) :
  a ∈ health.snapshot
        (database.preload_Addresses (λ _, true) db
           <$> List.filter database.live (database.backends db))
  ↔ a ∈ database.addresses db ∧ Address_Deleted a = false
    ∧ ∃ b, b ∈ database.backends db ∧ Backend_Deleted b = false
           ∧ Backend_ID b = BackendID a.
Proof.
  unfold health.snapshot. rewrite list_elem_of_In, in_flat_map. split.
  - intros (b' & Hb' & Ha). apply list_elem_of_In, list_elem_of_fmap in Hb' as (b & -> & Hb).
    apply list_elem_of_In, filter_In in Hb as [Hb Hlive].
    simpl in Ha. apply filter_In in Ha as [Ha Hcond].
    rewrite andb_true_r in Hcond. apply andb_prop in Hcond as [Halive Hkey].
    apply N.eqb_eq in Hkey. unfold database.live in *. simpl in *.
    apply negb_true_iff in Hlive, Halive.
    split; [by apply list_elem_of_In|]. split; [done|].
    exists b. split; [by apply list_elem_of_In | done].
  - intros (Ha & Halive & b & Hb & Hlive & Hkey).
    exists (database.preload_Addresses (λ _, true) db b). split.
    + apply list_elem_of_In, list_elem_of_fmap_2, list_elem_of_In, filter_In.
      split; [by apply list_elem_of_In|]. unfold database.live. simpl. by rewrite Hlive.
    + simpl. apply filter_In. split; [by apply list_elem_of_In|].
      unfold database.live. simpl. by rewrite Halive, Hkey, N.eqb_refl.
Qed.

Lemma snapshot_keys db (bs : list Backend) :
  NoDup (Backend_ID <$> bs) →
  NoDup (Address_ID <$> database.addresses db) →
  NoDup (Address_ID <$> health.snapshot (database.preload_Addresses (λ _, true) db <$> bs)).
Proof.
  intros Hbs Haddrs. induction bs as [|b bs IH]; simpl; [constructor|].
  simpl in Hbs. apply NoDup_cons in Hbs as [Hfresh Hbs].
  rewrite fmap_app. apply NoDup_app. split; [|split; [|by apply IH]].
  - apply (NoDup_fmap_2_strong Address_ID).
    + intros x y Hx Hy Hkey. apply list_elem_of_In, filter_In in Hx as [Hx _].
      apply list_elem_of_In, filter_In in Hy as [Hy _].
      apply (same_key_same_row Address_ID (database.addresses db));
        [done | by apply list_elem_of_In.. | done].
    + apply NoDup_ListNoDup, List.NoDup_filter, NoDup_ListNoDup.
      by apply (NoDup_fmap_1 Address_ID).
  - intros id (x & -> & Hx)%list_elem_of_fmap (y & Hkey & Hy)%list_elem_of_fmap.
    apply list_elem_of_In, filter_In in Hx as [Hx Hcond].
    rewrite andb_true_r in Hcond. apply andb_prop in Hcond as [_ Hxb].
    apply N.eqb_eq in Hxb.
    apply list_elem_of_In, in_flat_map in Hy as (b'' & Hb'' & Hy).
    apply list_elem_of_In, list_elem_of_fmap in Hb'' as (b' & -> & Hb').
    simpl in Hy. apply filter_In in Hy as [Hy Hcond].
    rewrite andb_true_r in Hcond. apply andb_prop in Hcond as [_ Hyb].
    apply N.eqb_eq in Hyb.
    assert (x = y) as ->.
    { apply (same_key_same_row Address_ID (database.addresses db));
        [done | by apply list_elem_of_In.. | done]. }
    apply Hfresh. rewrite <- Hxb, Hyb. by apply list_elem_of_fmap_2.
Qed.

(** X12. After a health tick on a store with unique keys and a database
    that answers the update of every address, every live address of a
    live backend is flagged as its probe found it: available exactly when
    the dial connected, whatever the order in which the probes wrote. *)
Theorem tick_flags_every_address_as_probed
    (dial : health.Dial) (fs : nat → database.Faults) (clock : nat → Z * Z)
    (order : list Address → list Address) (db : database.DB) (a : Address) (b : Backend) :
  NoDup (Backend_ID <$> database.backends db) →
  NoDup (Address_ID <$> database.addresses db) →
  (∀ l, order l ≡ₚ l) →
  (∀ k, fs k 0%nat = None) →
  a ∈ database.addresses db → Address_Deleted a = false →
  b ∈ database.backends db → Backend_Deleted b = false → Backend_ID b = BackendID a →
  ∃ a',
    stored (Address_ID a)
      (database.addresses
         (snd (health.checkAllBackends dial database.no_faults fs clock order db))) = Some a'
    ∧ Available a' = fst (health.checkAddress dial (IP a) (Port a))
    ∧ IP a' = IP a ∧ Port a' = Port a ∧ BackendID a' = BackendID a.
Proof.
  intros Hbackends Haddresses Horder Hfaults Ha Halive Hb Hblive Hkey.
  unfold health.checkAllBackends, database.GetAllBackends. simpl.
  set (shot := health.snapshot _).
  apply probes_converge; [done| | |].
  - rewrite Horder. apply snapshot_keys; [|done].
    apply (NoDup_fmap_2_strong Backend_ID).
    + intros x y Hx Hy. apply list_elem_of_In, filter_In in Hx as [Hx _].
      apply list_elem_of_In, filter_In in Hy as [Hy _].
      apply (same_key_same_row Backend_ID (database.backends db)); by try apply list_elem_of_In.
    + apply NoDup_ListNoDup, List.NoDup_filter, NoDup_ListNoDup.
      by apply (NoDup_fmap_1 Backend_ID).
  - intros x Hx. rewrite Horder in Hx. apply snapshot_elem in Hx as (Hx & Hxlive & _).
    exact (stored_of_elem (database.addresses db) x Haddresses Hx Hxlive).
  - rewrite Horder. apply snapshot_elem. eauto 8.
Qed.

Lemma tick_flags_every_address_as_probed_witness :
  ∃ a',
    stored 1
      (database.addresses
         (snd (health.checkAllBackends all_down database.no_faults (λ _, database.no_faults)
                 (λ _, (1000, 1001)) reverse scenario.store))) = Some a'
    ∧ Available a' = false.
Proof.
  assert (NoDup [1%N; 2%N]) as Hkeys.
  { apply NoDup_cons. split; [by intros [=]%list_elem_of_singleton | apply NoDup_singleton]. }
  destruct (tick_flags_every_address_as_probed all_down (λ _, database.no_faults)
              (λ _, (1000, 1001)) reverse scenario.store scenario.a1 scenario.b1
              Hkeys Hkeys) as (a' & Hstored & Hflag & _).
  - intros l. apply reverse_Permutation.
  - done.
  - by left.
  - done.
  - by left.
  - done.
  - done.
  - exists a'. split; [exact Hstored | exact Hflag].
Defined.

End transitions.

(** ** database: invariants of the write path *)
Section invariants.
Import models props.

Lemma max_key_above (ids : list N) (id : N) :
  id ∈ ids → (id ≤ foldr N.max 0 ids)%N.
Proof.
  induction ids as [|y ids IH]; [by intros ?%elem_of_nil|].
  change (foldr N.max 0%N (y :: ids)) with (N.max y (foldr N.max 0%N ids)).
  intros [-> | Hin]%elem_of_cons; [lia|]. specialize (IH Hin). lia.
Qed.

Lemma fresh_ID_above {A} `{database.Row A} (t : list A) (r : A) :
  r ∈ t → (database.row_ID r < database.fresh_ID t)%N.
Proof.
  intros Hr. unfold database.fresh_ID.
  pose proof (max_key_above (database.row_ID <$> t) (database.row_ID r)
                (list_elem_of_fmap_2 _ _ _ Hr)).
  lia.
Qed.

Lemma keys_snoc_fresh {A} `{database.RowLaws A} (x : A) (t : list A) :
  NoDup (database.row_ID <$> t) →
  NoDup (database.row_ID <$> t ++ [database.set_ID (database.fresh_ID t) x]).
Proof.
  intros Hkeys. rewrite fmap_app. apply NoDup_app. split; [done|]. split.
  - intros id (r & -> & Hr)%list_elem_of_fmap Hid. simpl in Hid.
    apply list_elem_of_singleton in Hid. rewrite database.row_ID_set_ID in Hid.
    pose proof (fresh_ID_above t r Hr). lia.
  - apply NoDup_singleton.
Qed.

Lemma keys_snoc_absent {A} `{database.Row A} (x : A) (t : list A) :
  NoDup (database.row_ID <$> t) →
  existsb (database.has_ID (database.row_ID x)) t = false →
  NoDup (database.row_ID <$> t ++ [x]).
Proof.
  intros Hkeys Habsent. rewrite fmap_app. apply NoDup_app. split; [done|]. split.
  - intros id (r & -> & Hr)%list_elem_of_fmap Hid. simpl in Hid.
    apply list_elem_of_singleton in Hid.
    assert (existsb (database.has_ID (database.row_ID x)) t = true) as Hpresent.
    { apply existsb_exists. exists r. split; [by apply list_elem_of_In|].
      unfold database.has_ID. by apply N.eqb_eq. }
    congruence.
  - apply NoDup_singleton.
Qed.

Lemma keys_replace_row {A} `{database.Row A} (x : A) (t : list A) :
  database.row_ID <$> database.replace_row x t = database.row_ID <$> t.
Proof.
  induction t as [|r t IH]; simpl; [done|].
  destruct (database.has_ID (database.row_ID x) r) eqn:Hr; simpl.
  - apply N.eqb_eq in Hr. by rewrite Hr.
  - f_equal. exact IH.
Qed.

Lemma keys_mark_deleted {A} `{database.RowLaws A} (cond : A → bool) (t : list A) :
  database.row_ID <$> ((λ r, if cond r then database.set_Deleted true r else r) <$> t)
  = database.row_ID <$> t.
Proof.
  rewrite <- list_fmap_compose. apply list_fmap_ext. intros i r _. simpl.
  destruct (cond r); [apply database.row_ID_set_Deleted | done].
Qed.

Lemma Create_keys {A} `{database.RowLaws A} f k (x x' : A) (t t' : list A) :
  database.Create f k x t = inr (x', t') →
  NoDup (database.row_ID <$> t) → NoDup (database.row_ID <$> t').
Proof.
  unfold database.Create. destruct (f k); [done|].
  destruct (database.row_ID x =? 0)%N.
  - intros [= <- <-]. apply keys_snoc_fresh.
  - destruct (existsb _ t) eqn:Habsent; [done|]. intros [= <- <-] Hkeys.
    by apply keys_snoc_absent.
Qed.

Lemma Save_keys {A} `{database.RowLaws A} f k (x x' : A) (t t' : list A) :
  database.Save f k x t = inr (x', t') →
  NoDup (database.row_ID <$> t) → NoDup (database.row_ID <$> t').
Proof.
  unfold database.Save. destruct (database.row_ID x =? 0)%N; [apply Create_keys|].
  destruct (f k); [done|].
  destruct (existsb _ t) eqn:Habsent; intros [= <- <-] Hkeys.
  - by rewrite keys_replace_row.
  - by apply keys_snoc_absent.
Qed.

Lemma Delete_keys {A} `{database.RowLaws A} f k (cond : A → bool) (t t' : list A) :
  database.Delete f k cond t = inr t' →
  NoDup (database.row_ID <$> t) → NoDup (database.row_ID <$> t').
Proof.
  intros ->%Delete_rows Hkeys.
  by rewrite (keys_mark_deleted (λ r, database.live r && cond r)).
Qed.

(** One step through the body of a store method that keeps, for the
    table a statement writes, the uniqueness of its keys. *)
Ltac keys_step :=
  match goal with
  | Hkeys : NoDup (_ <$> ?t) |- context [database.Create ?f ?k ?x ?t] =>
      let H := fresh "Hcreate" in
      destruct (database.Create f k x t) as [?|[? ?]] eqn:H;
      [|apply Create_keys in H; [|exact Hkeys]]
  | Hkeys : NoDup (_ <$> ?t) |- context [database.Save ?f ?k ?x ?t] =>
      let H := fresh "Hsave" in
      destruct (database.Save f k x t) as [?|[? ?]] eqn:H;
      [|apply Save_keys in H; [|exact Hkeys]]
  | Hkeys : NoDup (_ <$> ?t) |- context [database.Delete ?f ?k ?c ?t] =>
      let H := fresh "Hdelete" in
      destruct (database.Delete f k c t) as [?|?] eqn:H;
      [|apply Delete_keys in H; [|exact Hkeys]]
  | |- context [database.First ?f ?k ?id ?t] =>
      destruct (database.First f k id t) as [?|?]
  | |- context [database.Count ?f ?k ?c ?t] =>
      destruct (database.Count f k c t) as [?|?]
  | |- context [database.Create_ConfigChange ?f ?k ?c ?tx] =>
      unfold database.Create_ConfigChange
  | |- context [database.Commit ?f ?k ?tx ?db] =>
      unfold database.Commit
  | |- context [match ?f ?k with Some _ => _ | None => _ end] =>
      destruct (f k)
  | |- context [if ?b then _ else _] => destruct b
  end.

(** X13. The write path keeps the primary keys unique: after any of the
    fifteen create, update and delete methods, successful or not, no
    table of the store has two rows with the same id, provided none had
    before. A struct sent with an id that some row already has (deleted
    or not) cannot add a second row: Create refuses it and Save
    overwrites the row. *)
Theorem write_path_keeps_keys_unique
    (f : database.Faults) (m : mutation) (changedBy : string) (db : database.DB) :
  keys_unique db → keys_unique (snd (run f m changedBy db)).
Proof.
  intros (Hbackends & Haddresses & Hsets & Hsources & Hrules).
  destruct m; unfold run;
    unfold database.CreateBackend, database.UpdateBackend, database.DeleteBackend,
      database.CreateAddress, database.UpdateAddress, database.DeleteAddress,
      database.CreateBackendSet, database.UpdateBackendSet, database.DeleteBackendSet,
      database.CreateSourceDefinition, database.UpdateSourceDefinition,
      database.DeleteSourceDefinition,
      database.CreateRule, database.UpdateRule, database.DeleteRule;
    simpl database.backends; simpl database.addresses; simpl database.backend_sets;
    simpl database.source_definitions; simpl database.rules;
    repeat keys_step; simpl; done.
Qed.

Lemma write_path_keeps_keys_unique_witness :
  keys_unique
    (snd (run database.no_faults (create_rule (scenario.rule 1 443 "udp" 50 true))
            "192.0.2.1" scenario.store)).
Proof.
  apply write_path_keeps_keys_unique.
  assert (NoDup [1%N; 2%N]) as Htwo.
  { apply NoDup_cons. split; [by intros [=]%list_elem_of_singleton | apply NoDup_singleton]. }
  repeat split; simpl; try exact Htwo; apply NoDup_singleton.
Defined.

End invariants.

Section validated_sources.
Import models props.









End validated_sources.

(** ** database and api: reading back and missing rows *)
Section round_trips.
Import models props.






(** X16. A delete for an id without a live row changes nothing and
    returns gorm's "record not found", for each of the five delete
    methods, as long as the database answers the lookup; the handler of
    DELETE /api/rules/:id turns it into status 500 with that text. *)
Theorem delete_of_missing_row_is_not_found
    (f : database.Faults) (id : N) (changedBy : string) (db : database.DB) :
  f 0%nat = None →
  (stored id (database.backends db) = None →
     database.DeleteBackend f id changedBy db = (Some database.ErrRecordNotFound, db))
  ∧ (stored id (database.addresses db) = None →
     database.DeleteAddress f id changedBy db = (Some database.ErrRecordNotFound, db))
  ∧ (stored id (database.backend_sets db) = None →
     database.DeleteBackendSet f id changedBy db = (Some database.ErrRecordNotFound, db))
  ∧ (stored id (database.source_definitions db) = None →
     database.DeleteSourceDefinition f id changedBy db
     = (Some database.ErrRecordNotFound, db))
  ∧ (stored id (database.rules db) = None →
     database.DeleteRule f id changedBy db = (Some database.ErrRecordNotFound, db)
     ∧ ∀ param, api.ParseUint param = Some id →
         api.deleteRule f param changedBy db
         = (api.JSON api.StatusInternalServerError (api.error_body "record not found"), db)).
Proof.
  intros Hf0. unfold stored.
  split; [|split; [|split; [|split]]]; intros Hnone.
  - unfold database.DeleteBackend, database.First. by rewrite Hf0, Hnone.
  - unfold database.DeleteAddress, database.First. by rewrite Hf0, Hnone.
  - unfold database.DeleteBackendSet, database.First. by rewrite Hf0, Hnone.
  - unfold database.DeleteSourceDefinition, database.First. by rewrite Hf0, Hnone.
  - split.
    + unfold database.DeleteRule, database.First. by rewrite Hf0, Hnone.
    + intros param Hparam. unfold api.deleteRule, database.DeleteRule, database.First.
      by rewrite Hparam, Hf0, Hnone.
Qed.

Lemma delete_of_missing_row_is_not_found_witness :
  api.deleteRule database.no_faults "7" "192.0.2.1" scenario.store
  = (api.JSON 500 (api.error_body "record not found"), scenario.store).
Proof.
  destruct (delete_of_missing_row_is_not_found database.no_faults 7 "192.0.2.1"
              scenario.store eq_refl) as (_ & _ & _ & _ & Hrule).
  destruct (Hrule eq_refl) as [_ Hhandler].
  exact (Hhandler "7" eq_refl).
Defined.

Lemma CreateAddress_success f backendID a changedBy db a' db' :
  database.CreateAddress f backendID a changedBy db = (None, a', db') →
  a' ∈ database.addresses db' ∧ BackendID a' = backendID ∧ IP a' = IP a ∧ Port a' = Port a.
Proof.
  unfold database.CreateAddress.
  destruct (database.Create f 0 _ _) as [?|[x t]] eqn:Hcreate; [done|].
  unfold database.Create_ConfigChange, database.Commit.
  destruct (f 1%nat); [done|]. destruct (f 2%nat); [done|].
  intros [= <- <-]. simpl.
  apply Create_rows in Hcreate as (-> & Hsame & Hfresh).
  split; [apply elem_of_snoc|]. simpl in Hsame, Hfresh.
  destruct (N.eq_dec (Address_ID a) 0%N) as [Hzero | Hnonzero].
  - by rewrite (Hfresh Hzero).
  - by rewrite (Hsame Hnonzero).
Qed.

(** X17. A POST /api/backends/:id/addresses answered with 201 has stored
    an address of the backend named in the path, whatever backend_id its
    body carried; that backend had a live row when the handler looked,
    and the IP of the address is an IP literal. *)
Theorem address_is_created_under_the_backend_of_the_path
    (fg fc : database.Faults) (param : string) (bound : string + Address)
    (clientIP : string) (db db' : database.DB) (resp : api.response) :
  api.addBackendAddress fg fc param bound clientIP db = (resp, db') →
  api.status resp = api.StatusCreated →
  ∃ id backend a',
    api.ParseUint param = Some id
    ∧ stored id (database.backends db) = Some backend
    ∧ api.content resp = api.Address_body a'
    ∧ a' ∈ database.addresses db' ∧ BackendID a' = id
    ∧ net.ParseIP (IP a') ≠ [].
Proof.
  unfold api.addBackendAddress, database.GetBackend, database.First.
  destruct (api.ParseUint param) as [id|]; [|by intros [= <- <-]].
  destruct (fg 0%nat); [by intros [= <- <-]|].
  destruct (List.find _ (database.backends db)) as [backend|] eqn:Hstored;
    [|by intros [= <- <-]].
  destruct bound as [text|address]; [by intros [= <- <-]|].
  destruct (net.is_nil (net.ParseIP (IP address))) eqn:Hip; [by intros [= <- <-]|].
  destruct (database.CreateAddress _ _ _ _ _) as [[[err|] a'] db1] eqn:Hcall;
    intros [= <- <-]; [done|]. intros _.
  apply CreateAddress_success in Hcall as (Hin & Hbackend & Hsame & _).
  exists id, backend, a'. do 5 (split; [done|]).
  rewrite Hsame. intros Hnil. by rewrite Hnil in Hip.
Qed.

Lemma address_is_created_under_the_backend_of_the_path_witness :
  ∃ resp db' a',
    api.addBackendAddress database.no_faults database.no_faults "2"
      (inr (scenario.address 0 1 "10.0.0.12" 8080 true)) "192.0.2.1" scenario.store
    = (resp, db')
    ∧ api.content resp = api.Address_body a' ∧ BackendID a' = 2%N.
Proof.
  eexists _, _.
  destruct (address_is_created_under_the_backend_of_the_path database.no_faults
              database.no_faults "2" (inr (scenario.address 0 1 "10.0.0.12" 8080 true))
              "192.0.2.1" scenario.store _ _ eq_refl eq_refl)
    as (id & backend & a' & Hid & _ & Hbody & _ & Hbackend & _).
  exists a'. split; [reflexivity|]. split; [exact Hbody|].
  injection Hid as <-. exact Hbackend.
Defined.

End round_trips.

(** ** main.updateNFTables: one reconciliation tick *)
Section reconciliation.
Import models nftables props.

Lemma GetAvailableBackendAddresses_answered f id db :
  f 0%nat = None →
  database.GetAvailableBackendAddresses f id db
  = (None, snd (database.GetAvailableBackendAddresses database.no_faults id db)).
Proof. unfold database.GetAvailableBackendAddresses. by intros ->. Qed.

Lemma collect_addresses_lookup fa i (rules : list Rule) db
    (init : gmap N (list Address)) id l :
  (∀ k, fa k 0%nat = None) →
  main.collect_addresses fa i rules db init !! id = Some l →
  l = snd (database.GetAvailableBackendAddresses database.no_faults id db)
  ∨ init !! id = Some l.
Proof.
  intros Hfaults. revert i init.
  induction rules as [|rule rest IH]; intros i init; simpl; [by right|].
  rewrite (GetAvailableBackendAddresses_answered (fa i)) by done.
  intros [-> | Hlookup]%IH; [by left|].
  destruct (decide (BackendSetID rule = id)) as [<- | Hne].
  - rewrite lookup_insert_eq in Hlookup. injection Hlookup as <-. by left.
  - rewrite lookup_insert_ne in Hlookup by done. by right.
Qed.

(** X18. After a reconciliation tick in which the store answers its
    queries and the kernel commit succeeds, every rule of the chain
    belongs to a live enabled rule of the store, carries its tag, and
    sends to an address that is flagged available and whose backend is a
    member of the rule's backend set: the last expressions of the kernel
    rule are the DNAT to that address. *)
Theorem tick_installs_only_rules_with_an_available_target
    (fr : database.Faults) (fa : nat → database.Faults)
    (db : database.DB) (nft : Manager) :
  fr 0%nat = None → (∀ k, fa k 0%nat = None) →
  ∃ nft',
    main.updateNFTables fr fa None db nft = (None, nft')
    ∧ ∀ kr, kr ∈ chain nft' →
        ∃ rule a es,
          rule ∈ database.rules db ∧ Rule_Deleted rule = false ∧ Enabled rule = true
          ∧ UserData kr = rule_tag rule
          ∧ a ∈ database.addresses db ∧ Available a = true
          ∧ (BackendSetID rule, BackendID a) ∈ database.backend_set_backends db
          ∧ Exprs_ kr = es ++ dnat (net.To4 (net.ParseIP (IP a))) a.
Proof.
  intros Hfr Hfa. unfold main.updateNFTables, database.GetActiveRules. rewrite Hfr.
  unfold ApplyRules. eexists. split; [reflexivity|]. simpl.
  intros kr (rule' & l & Hrule' & Htag & Hl & Hcompiled)%queued_rule_origin.
  apply list_elem_of_fmap in Hrule' as (rule & -> & Hrule).
  rewrite order_by_priority_desc_Permutation in Hrule.
  apply list_elem_of_In, filter_In in Hrule as [Hrule Hactive].
  apply andb_prop in Hactive as [Hlive Henabled].
  unfold database.live in Hlive. simpl in Hlive. apply negb_true_iff in Hlive.
  destruct Hcompiled as (protoNum & src & a & _ & _ & Ha & _ & Hes).
  destruct (collect_addresses_lookup _ _ _ _ _ _ _ Hfa Hl) as [-> | Hempty];
    [|by rewrite lookup_empty in Hempty].
  simpl in Ha.
  apply (available_address_elem database.no_faults _ db _ a eq_refl) in Ha
    as (Ha & Havailable & _ & Hlink).
  exists rule, a, (protocol_match protoNum
                   ++ destination_port_match (database.preload_active db rule) ++ src).
  split; [by apply list_elem_of_In|]. do 2 (split; [done|]). split; [done|].
  do 3 (split; [done|]). by rewrite Hes, <- !app_assoc.
Qed.

Lemma tick_installs_only_rules_with_an_available_target_witness :
  ∃ nft',
    main.updateNFTables database.no_faults (λ _, database.no_faults) None
      scenario.store scenario.manager = (None, nft')
    ∧ length (chain nft') = 1%nat.
Proof.
  destruct (tick_installs_only_rules_with_an_available_target database.no_faults
              (λ _, database.no_faults) scenario.store scenario.manager eq_refl
              (λ _, eq_refl)) as (nft' & Htick & _).
  exists nft'. split; [exact Htick|].
  vm_compute in Htick. injection Htick as <-. reflexivity.
Defined.

End reconciliation.

(** ** models.Validate on ranges *)
Section ranges.
Import models props.

(** X19. For two address literals that both parse, Validate accepts the
    range in at least one of the two orders, and in both orders only when
    the two literals denote the same address; a range from an address to
    itself is accepted. *)
Theorem range_is_valid_in_one_order (sd sd' : SourceDefinition) :
  Type_ sd = "range" → Type_ sd' = "range" →
  RangeStart sd' = RangeEnd sd → RangeEnd sd' = RangeStart sd →
  net.ParseIP (RangeStart sd) ≠ [] → net.ParseIP (RangeEnd sd) ≠ [] →
  (Validate sd = true ∨ Validate sd' = true)
  ∧ (Validate sd = true → Validate sd' = true →
     net.ParseIP (RangeStart sd) = net.ParseIP (RangeEnd sd))
  ∧ (RangeStart sd = RangeEnd sd → Validate sd = true).
Proof.
  intros Htype Htype' Hstart Hend Hs He. unfold Validate.
  rewrite Htype, Htype', Hstart, Hend. simpl.
  destruct (net.ParseIP (RangeStart sd)) as [|s0 s] eqn:Hps; [done|].
  destruct (net.ParseIP (RangeEnd sd)) as [|e0 e] eqn:Hpe; [done|].
  pose proof (CompareIPs_swap (s0 :: s) (e0 :: e)) as Hswap.
  pose proof (CompareIPs_equal (s0 :: s) (e0 :: e)) as Hequal.
  assert (RangeStart sd = RangeEnd sd → CompareIPs (s0 :: s) (e0 :: e) = 0) as Hsame.
  { intros Heq. rewrite Heq, Hpe in Hps. apply Hequal. congruence. }
  remember (CompareIPs (s0 :: s) (e0 :: e)) as forth.
  remember (CompareIPs (e0 :: e) (s0 :: s)) as back.
  simpl.
  destruct (Z.leb_spec forth 0), (Z.leb_spec back 0).
  - split; [by left|]. split; [intros _ _; apply Hequal; lia|]. done.
  - split; [by left|]. done.
  - split; [by right|]. split; [done|]. intros Heq. specialize (Hsame Heq). lia.
  - lia.
Qed.

Lemma range_is_valid_in_one_order_witness :
  Validate (scenario.source 3 "up" "range" "" "" "10.0.0.1" "10.0.0.5") = true
  ∨ Validate (scenario.source 4 "down" "range" "" "" "10.0.0.5" "10.0.0.1") = true.
Proof.
  refine (proj1 (range_is_valid_in_one_order
                   (scenario.source 3 "up" "range" "" "" "10.0.0.1" "10.0.0.5")
                   (scenario.source 4 "down" "range" "" "" "10.0.0.5" "10.0.0.1")
                   eq_refl eq_refl eq_refl eq_refl _ _)); vm_compute; discriminate.
Defined.

End ranges.

(** ** api: pagination of the log handlers *)
Section paging.
Import props.

Lemma Atoi_range (s : string) (v : Z) :
  api.Atoi s = Some v → - 9223372036854775808 ≤ v ≤ 9223372036854775807.
Proof.
  unfold api.Atoi. destruct (match net.chars s with [] => _ | _ => _ end) as [negative digits].
  destruct digits as [|c digits]; [done|].
  destruct (api.digits_value _ _) as [n|]; [|done].
  destruct (Z.ltb_spec (if negative then - n else n) (- 9223372036854775808));
    simpl; [done|].
  destruct (Z.ltb_spec 9223372036854775807 (if negative then - n else n)); simpl; [done|].
  intros [= <-]. lia.
Qed.

(** X20. Whatever the query parameters of GET /api/logs/config and
    GET /api/logs/availability are, the handlers pass the store a limit of
    at least 1 and an offset of at least 0, both within the range of an
    int; absent, malformed, non-positive limit and negative offset
    parameters give the defaults 100 and 0. *)
Theorem pagination_is_always_in_range (limitParam offsetParam : string) :
  1 ≤ fst (api.pagination limitParam offsetParam) ≤ 9223372036854775807
  ∧ 0 ≤ snd (api.pagination limitParam offsetParam) ≤ 9223372036854775807
  ∧ (api.Atoi limitParam = None → fst (api.pagination limitParam offsetParam) = 100)
  ∧ (api.Atoi offsetParam = None → snd (api.pagination limitParam offsetParam) = 0)
  ∧ (∀ v, api.Atoi limitParam = Some v →
          fst (api.pagination limitParam offsetParam) = if 0 <? v then v else 100)
  ∧ (∀ v, api.Atoi offsetParam = Some v →
          snd (api.pagination limitParam offsetParam) = if 0 <=? v then v else 0).
Proof.
  unfold api.pagination. simpl.
  assert (api.Atoi "" = None) as Hempty by reflexivity.
  split; [|split; [|split; [|split; [|split]]]].
  - destruct (limitParam =? "")%string; simpl; [lia|].
    destruct (api.Atoi limitParam) as [v|] eqn:Hv; [|lia].
    apply Atoi_range in Hv. destruct (Z.ltb_spec 0 v); lia.
  - destruct (offsetParam =? "")%string; simpl; [lia|].
    destruct (api.Atoi offsetParam) as [v|] eqn:Hv; [|lia].
    apply Atoi_range in Hv. destruct (Z.leb_spec 0 v); lia.
  - intros ->. by destruct (limitParam =? "")%string.
  - intros ->. by destruct (offsetParam =? "")%string.
  - intros v Hv. destruct (String.eqb_spec limitParam "") as [-> | _]; simpl.
    + congruence.
    + by rewrite Hv.
  - intros v Hv. destruct (String.eqb_spec offsetParam "") as [-> | _]; simpl.
    + congruence.
    + by rewrite Hv.
Qed.

Lemma pagination_is_always_in_range_witness :
  api.pagination "25" "-3" = (25, 0) ∧ api.pagination "0" "x" = (100, 0).
Proof.
  pose proof (pagination_is_always_in_range "25" "-3") as (_ & _ & _ & _ & Hl & Ho).
  pose proof (pagination_is_always_in_range "0" "x") as (_ & _ & _ & Ho' & Hl' & _).
  split.
  - rewrite (surjective_pairing (api.pagination "25" "-3")).
    by rewrite (Hl 25 eq_refl), (Ho (-3) eq_refl).
  - rewrite (surjective_pairing (api.pagination "0" "x")).
    by rewrite (Hl' 0 eq_refl), (Ho' eq_refl).
Defined.

End paging.

(** ** main: configuration *)
Section configuration.
Import main props.

Lemma override_string_empty (flag current : string) :
  is_empty (override_string flag current) = is_empty flag && is_empty current.
Proof. unfold override_string. by destruct (is_empty flag) eqn:Hflag. Qed.

Lemma override_number_zero (flag current : Z) :
  (override_number flag current =? 0) = (flag =? 0) && (current =? 0).
Proof. unfold override_number. by destruct (flag =? 0) eqn:Hflag. Qed.

Lemma override_keeps_valid (config : Config) (flags : Flags) :
  validateConfig config = None → validateConfig (override config flags) = None.
Proof.
  unfold validateConfig, override. simpl.
  rewrite !override_string_empty, override_number_zero.
  destruct (is_empty (DBHost config)); [done|].
  destruct (DBPort config =? 0); [done|].
  destruct (is_empty (DBUser config)); [done|].
  destruct (is_empty (DBName config)); [done|].
  destruct (is_empty (APIListenAddr config)); [done|].
  destruct (is_empty (NFTablesTable config)); [done|].
  destruct (is_empty (NFTablesChain config)); [done|].
  by rewrite !andb_false_r.
Qed.

(** X21. Command-line flags can only fill the configuration in: a
    configuration that passes validateConfig still passes it after the
    override by any flags, so without a configuration file parseConfig
    never exits and yields the defaults with the set flags on top; and
    whenever parseConfig yields a configuration, it passes validateConfig
    and every required field with a set flag has the value of the flag. *)
Theorem flags_override_and_keep_the_configuration_valid (flags : Flags) :
  (∀ config, validateConfig config = None →
             validateConfig (override config flags) = None)
  ∧ parseConfig no_file flags = configured (override defaultConfig flags)
  ∧ (∀ file config,
       parseConfig file flags = configured config →
       validateConfig config = None
       ∧ (dbHost flags ≠ "" → DBHost config = dbHost flags)
       ∧ (dbPort flags ≠ 0 → DBPort config = dbPort flags)
       ∧ (dbUser flags ≠ "" → DBUser config = dbUser flags)
       ∧ (dbName flags ≠ "" → DBName config = dbName flags)
       ∧ (apiListenAddr flags ≠ "" → APIListenAddr config = apiListenAddr flags)
       ∧ (nftTable flags ≠ "" → NFTablesTable config = nftTable flags)
       ∧ (nftChain flags ≠ "" → NFTablesChain config = nftChain flags)).
Proof.
  split; [intros config; apply override_keeps_valid|]. split.
  - unfold parseConfig.
    by rewrite (override_keeps_valid defaultConfig flags eq_refl).
  - intros file config. unfold parseConfig.
    assert (∀ flag current : string, flag ≠ "" → override_string flag current = flag)
      as Hstring.
    { intros flag current Hflag. unfold override_string, is_empty.
      by destruct (String.eqb_spec flag ""). }
    assert (∀ flag current : Z, flag ≠ 0 → override_number flag current = flag) as Hnumber.
    { intros flag current Hflag. unfold override_number. by destruct (Z.eqb_spec flag 0). }
    destruct file as [| |fill]; [|done|].
    all: destruct (validateConfig (override _ flags)) eqn:Hvalid; [done|].
    all: intros [= <-]; split; [exact Hvalid|]; simpl; repeat split; auto.
Qed.

Lemma flags_override_and_keep_the_configuration_valid_witness :
  ∃ config,
    parseConfig no_file
      {| configFile := "config.yaml"; logLevel := ""; dbHost := "db.internal"; dbPort := 0;
         dbUser := ""; dbPassword := ""; dbName := ""; dbSSLMode := "";
         apiListenAddr := ""; updateInterval := 0; healthCheckTimeout := 0;
         healthCheckInterval := 0; nftTable := ""; nftChain := "" |}
    = configured config
    ∧ DBHost config = "db.internal" ∧ DBPort config = 5432
    ∧ validateConfig config = None.
Proof.
  eexists. split; [reflexivity|].
  destruct (flags_override_and_keep_the_configuration_valid
              {| configFile := "config.yaml"; logLevel := ""; dbHost := "db.internal";
                 dbPort := 0; dbUser := ""; dbPassword := ""; dbName := ""; dbSSLMode := "";
                 apiListenAddr := ""; updateInterval := 0; healthCheckTimeout := 0;
                 healthCheckInterval := 0; nftTable := ""; nftChain := "" |})
    as (_ & _ & Hparsed).
  destruct (Hparsed no_file _ eq_refl) as (Hvalid & Hhost & _).
  split; [apply Hhost; discriminate|]. split; [reflexivity | exact Hvalid].
Defined.

End configuration.

(** ** database.UpdateBackendSet: the members of a backend set *)
Section membership.
Import models props.






End membership.
